(** * OpenManus UI: log polling, status polling and message reconstruction

    A shallow embedding of the React state held by [App], [MainContent],
    the [useLogPolling] hook and [ChatArea], together with the handlers
    that update it:

    - [useLogPolling] / [pollLogs]      (hooks/useLogPolling.js)
    - the log-processing effect         (components/ChatArea.jsx, l.36-147)
    - the status-polling effect         (components/ChatArea.jsx, l.150-192)
    - [handleSendMessage]               (components/ChatArea.jsx, l.214-291)
    - [handleStartLoading] / [handleStopLoading] (components/MainContent.jsx)

    React state setters are modelled as functions on one record [UI];
    an [await] is collapsed into the handler that contains it, which
    receives the outcome of its [fetch] as an argument.  [new Date()] is
    a read of a clock oracle [now], indexed by the number of reads made
    so far. *)

From Stdlib Require Import String Ascii List ZArith Bool Lia.
Import ListNotations.
Open Scope string_scope.
Open Scope list_scope.
Open Scope bool_scope.

(* ================================================================= *)
(** ** JavaScript string primitives used by the components *)

Module JS.

(** [s.startsWith(p)] *)
Definition startsWith (s p : string) : bool := String.prefix p s.

Fixpoint drop (n : nat) (s : string) : string :=
  match n, s with
  | O, _ => s
  | S n', String _ r => drop n' r
  | S _, EmptyString => EmptyString
  end.

(** [s.replace(pat, '')] with a string pattern: the first occurrence
    of [pat] is removed, the rest of [s] is kept. *)
Fixpoint remove_first (pat s : string) : string :=
  if String.prefix pat s then drop (String.length pat) s
  else match s with
       | EmptyString => EmptyString
       | String c r => String c (remove_first pat r)
       end.

(** Truthiness of a string value and of a string-or-null value. *)
Definition truthy_string (s : string) : bool :=
  match s with EmptyString => false | String _ _ => true end.

Definition truthy (v : option string) : bool :=
  match v with None => false | Some s => truthy_string s end.

(** White space and line terminators of ECMAScript, in the UTF-8
    encoding the string literals of this file use. *)
Definition code (c : ascii) : nat := nat_of_ascii c.

Definition ws1 (c : ascii) : bool :=
  let n := code c in
  ((n =? 9) || (n =? 10) || (n =? 11) || (n =? 12) || (n =? 13)
   || (n =? 32))%nat.

(* U+00A0 *)
Definition ws2 (c1 c2 : ascii) : bool :=
  ((code c1 =? 194) && (code c2 =? 160))%nat.

(* U+1680, U+2000..U+200A, U+2028, U+2029, U+202F, U+205F, U+3000, U+FEFF *)
Definition ws3 (c1 c2 c3 : ascii) : bool :=
  let a := code c1 in let b := code c2 in let c := code c3 in
  (((a =? 225) && (b =? 154) && (c =? 128))
   || ((a =? 226) && (b =? 128)
       && (((128 <=? c) && (c <=? 138))
           || (c =? 168) || (c =? 169) || (c =? 175)))
   || ((a =? 226) && (b =? 129) && (c =? 159))
   || ((a =? 227) && (b =? 128) && (c =? 128))
   || ((a =? 239) && (b =? 187) && (c =? 191)))%nat.

Fixpoint trimStart (s : string) : string :=
  match s with
  | EmptyString => s
  | String c1 r1 =>
    if ws1 c1 then trimStart r1 else
    match r1 with
    | EmptyString => s
    | String c2 r2 =>
      if ws2 c1 c2 then trimStart r2 else
      match r2 with
      | EmptyString => s
      | String c3 r3 => if ws3 c1 c2 c3 then trimStart r3 else s
      end
    end
  end.

Fixpoint trimEnd (s : string) : string :=
  match trimStart s with
  | EmptyString => EmptyString
  | String _ _ =>
    match s with
    | EmptyString => EmptyString
    | String c r => String c (trimEnd r)
    end
  end.

(** [s.trim()] *)
Definition trim (s : string) : string := trimEnd (trimStart s).

(** [s.includes(sub)] *)
Fixpoint includes (s sub : string) : bool :=
  if String.prefix sub s then true
  else match s with
       | EmptyString => false
       | String _ r => includes r sub
       end.

End JS.

(* ================================================================= *)
(** ** Data model *)

(** An element of the [logs] array served by [/logs/:taskId]. *)
Record LogEntry := mkLog { level : string; message : string }.

Inductive Sender := bot | user.

Definition Sender_eqb (a b : Sender) : bool :=
  match a, b with
  | bot, bot | user, user => true
  | _, _ => false
  end.

(** An element of ChatArea's [messages] array.  A flag the object
    literal leaves out is [undefined] in the source and [false] here;
    [step] is [None] when the key is left out, [Some None] when it
    holds [null]. *)
Record Message := mkMessage {
  content : string;
  sender : Sender;
  timestamp : string;
  step : option (option string);
  isStepMessage : bool;
  isQuestion : bool;
  isResponse : bool
}.

(** JSON bodies of the backend's answers. *)
Module Api.

(** [{logs, next_index}]; [logs] may be missing. *)
Record LogsData := mkLogsData {
  logs : option (list LogEntry);
  next_index : Z
}.

(** [{status, response?}] *)
Record StatusData := mkStatusData {
  status : string;
  response : option string
}.

(** [{task_id}] *)
Record SendData := mkSendData { task_id : option string }.

(** What a [fetch] followed by [response.json()] can come to. *)
Inductive Fetched (A : Type) :=
| Rejected            (* the fetch promise rejects *)
| Malformed           (* the body is not JSON *)
| Json (data : A).
Arguments Rejected {A}.
Arguments Malformed {A}.
Arguments Json {A} data.

(** Requests the UI issues. *)
Inductive Request :=
| GetLogs (taskId : option string) (last_index : Z)
| GetStatus (taskId : option string)
| PostSend (message : string)
| PostHumanResponse (task_id : option string) (response : string).

End Api.

(** Lines written to the browser console. *)
Inductive Diagnostic :=
| Warn (text : string)
| Error (text : string).

(* ================================================================= *)
(** ** The state of the page *)

Record UI := mkUI {
  (* App *)
  currentTaskId : option string;
  (* MainContent *)
  isLoading : bool;
  (* useLogPolling *)
  lastIndex : Z;
  logs : list LogEntry;
  (* ChatArea *)
  messages : list Message;
  inputValue : string;
  isAwaitingHuman : bool;
  currentHumanQuestion : string;
  (* React: ChatArea holds a state update that has not been rendered *)
  scheduled : bool;
  (* the environment: clock reads made, console lines, requests sent *)
  clock : nat;
  console : list Diagnostic;
  sent : list Api.Request
}.

Definition setCurrentTaskId (v : option string) (st : UI) : UI :=
  mkUI v (isLoading st) (lastIndex st) (logs st) (messages st)
       (inputValue st) (isAwaitingHuman st) (currentHumanQuestion st)
       (scheduled st) (clock st) (console st) (sent st).

Definition setIsLoading (v : bool) (st : UI) : UI :=
  mkUI (currentTaskId st) v (lastIndex st) (logs st) (messages st)
       (inputValue st) (isAwaitingHuman st) (currentHumanQuestion st)
       (scheduled st) (clock st) (console st) (sent st).

Definition setLastIndex (v : Z) (st : UI) : UI :=
  mkUI (currentTaskId st) (isLoading st) v (logs st) (messages st)
       (inputValue st) (isAwaitingHuman st) (currentHumanQuestion st)
       (scheduled st) (clock st) (console st) (sent st).

Definition setLogs (f : list LogEntry -> list LogEntry) (st : UI) : UI :=
  mkUI (currentTaskId st) (isLoading st) (lastIndex st) (f (logs st))
       (messages st) (inputValue st) (isAwaitingHuman st)
       (currentHumanQuestion st) (scheduled st) (clock st) (console st)
       (sent st).

(** The setters of ChatArea schedule an update of the component when
    they change its state; an updater that builds a new array always
    does. *)
Definition setMessages (f : list Message -> list Message) (st : UI) : UI :=
  mkUI (currentTaskId st) (isLoading st) (lastIndex st) (logs st)
       (f (messages st)) (inputValue st) (isAwaitingHuman st)
       (currentHumanQuestion st) true (clock st) (console st) (sent st).

Definition setInputValue (v : string) (st : UI) : UI :=
  mkUI (currentTaskId st) (isLoading st) (lastIndex st) (logs st)
       (messages st) v (isAwaitingHuman st) (currentHumanQuestion st)
       (scheduled st || negb (v =? inputValue st)%string)
       (clock st) (console st) (sent st).

Definition setIsAwaitingHuman (v : bool) (st : UI) : UI :=
  mkUI (currentTaskId st) (isLoading st) (lastIndex st) (logs st)
       (messages st) (inputValue st) v (currentHumanQuestion st)
       (scheduled st || negb (Bool.eqb v (isAwaitingHuman st)))
       (clock st) (console st) (sent st).

Definition setCurrentHumanQuestion (v : string) (st : UI) : UI :=
  mkUI (currentTaskId st) (isLoading st) (lastIndex st) (logs st)
       (messages st) (inputValue st) (isAwaitingHuman st) v
       (scheduled st || negb (v =? currentHumanQuestion st)%string)
       (clock st) (console st) (sent st).

(** A render of ChatArea has been committed: nothing is scheduled. *)
Definition rendered (st : UI) : UI :=
  mkUI (currentTaskId st) (isLoading st) (lastIndex st) (logs st)
       (messages st) (inputValue st) (isAwaitingHuman st)
       (currentHumanQuestion st) false (clock st) (console st) (sent st).

Definition advance_clock (st : UI) : UI :=
  mkUI (currentTaskId st) (isLoading st) (lastIndex st) (logs st)
       (messages st) (inputValue st) (isAwaitingHuman st)
       (currentHumanQuestion st) (scheduled st) (S (clock st)) (console st)
       (sent st).

Definition console_log (d : Diagnostic) (st : UI) : UI :=
  mkUI (currentTaskId st) (isLoading st) (lastIndex st) (logs st)
       (messages st) (inputValue st) (isAwaitingHuman st)
       (currentHumanQuestion st) (scheduled st) (clock st)
       (console st ++ [d]) (sent st).

Definition fetch (r : Api.Request) (st : UI) : UI :=
  mkUI (currentTaskId st) (isLoading st) (lastIndex st) (logs st)
       (messages st) (inputValue st) (isAwaitingHuman st)
       (currentHumanQuestion st) (scheduled st) (clock st) (console st)
       (sent st ++ [r]).

(** The greeting ChatArea starts with. *)
Definition greeting (t : string) : Message :=
  mkMessage "Привет! Я интеллектуальный помощник OpenAgent. Введите ваш вопрос или команду, и я постараюсь помочь."
            bot t None true false false.

(* ================================================================= *)
(** ** Handlers: state and exceptions *)

(** A handler runs on the page state and either completes or throws;
    the state reached so far is kept in both cases. *)
Inductive Outcome (A : Type) :=
| Normal (a : A) (st : UI)
| Throw (error : string) (st : UI).
Arguments Normal {A} a st.
Arguments Throw {A} error st.

Definition Handler (A : Type) := UI -> Outcome A.

Definition ret {A : Type} (a : A) : Handler A := fun st => Normal a st.

Definition bind {A B : Type} (m : Handler A) (k : A -> Handler B)
  : Handler B :=
  fun st =>
    match m st with
    | Normal a st' => k a st'
    | Throw e st' => Throw e st'
    end.

(** [try { body } catch (error) { handler }] *)
Definition try_catch {A : Type} (body : Handler A)
  (handler : string -> Handler A) : Handler A :=
  fun st =>
    match body st with
    | Normal a st' => Normal a st'
    | Throw e st' => handler e st'
    end.

Definition update (f : UI -> UI) : Handler unit :=
  fun st => Normal tt (f st).

Definition state_of {A : Type} (o : Outcome A) : UI :=
  match o with
  | Normal _ st => st
  | Throw _ st => st
  end.

Definition completes {A : Type} (o : Outcome A) : bool :=
  match o with
  | Normal _ _ => true
  | Throw _ _ => false
  end.

Notation "x <- c ;; k" := (bind c (fun x => k))
  (at level 61, c at next level, right associativity).
Notation "c ;; k" := (bind c (fun _ => k))
  (at level 61, right associativity).

(** [await fetch(...)] then [await response.json()] *)
Definition await_json {A : Type} (r : Api.Fetched A) : Handler A :=
  fun st =>
    match r with
    | Api.Rejected => Throw "TypeError: Failed to fetch" st
    | Api.Malformed => Throw "SyntaxError: Unexpected token" st
    | Api.Json data => Normal data st
    end.

(** [await fetch(...)] alone: the body is not read. *)
Definition await_fetch {A : Type} (r : Api.Fetched A) : Handler unit :=
  fun st =>
    match r with
    | Api.Rejected => Throw "TypeError: Failed to fetch" st
    | _ => Normal tt st
    end.

(* ================================================================= *)
(** ** Message literals of ChatArea *)

Definition plainBot (text t : string) : Message :=
  mkMessage text bot t None false false false.

Definition questionMessage (question t : string) : Message :=
  mkMessage question bot t None false true false.

Definition responseMessage (response t : string) : Message :=
  mkMessage response user t None false false true.

Definition stepMessage (text : string) (currentStep : option string)
  (t : string) : Message :=
  mkMessage text bot t (Some currentStep) true false false.

Definition inStepMessage (text : string) (currentStep : option string)
  (t : string) : Message :=
  mkMessage text bot t (Some currentStep) false false false.

Definition userMessage (text t : string) : Message :=
  mkMessage text user t None false false false.

Definition thinking (t : string) : Message :=
  mkMessage "Думаю..." bot t None true false false.

Definition respondFailed : string :=
  "Ошибка при отправке ответа. Попробуйте снова.".

Definition sendFailed : string :=
  "Ошибка при отправке запроса, попробуйте снова.".

(* ================================================================= *)
(** ** Classification of log lines (ChatArea.jsx, l.42-58) *)

Definition shouldShowLog (message : string) : bool :=
  negb (JS.startsWith message "开始处理任务")
  && negb (JS.startsWith message "Token usage:")
  && negb (JS.startsWith message "Session debug_url:").

Definition isStepLog (message : string) : bool :=
  JS.startsWith message "Executing step".

Definition isHumanQuestion (message : string) : bool :=
  JS.startsWith message "[ASK_HUMAN]".

Definition isUserResponse (message : string) : bool :=
  JS.startsWith message "[USER_RESPONSE]".

(** The two [let] variables of the log-processing effect. *)
Record Locals := mkLocals {
  currentStep : option string;
  currentStepMessages : list string
}.

Definition noStep : Locals := mkLocals None [].

(* ================================================================= *)
(** ** The components *)

Section Components.

(** [now k] is what the [k]-th evaluation of
    [new Date().toISOString()] returns. *)
Variable now : nat -> string.

(** [setMessages(prev => [...prev, { ..., timestamp: new Date()... }])] *)
Definition appendMessage (literal : string -> Message) (st : UI) : UI :=
  advance_clock
    (setMessages (fun prev => prev ++ [literal (now (clock st))]) st).

(* ----------------------------------------------------------------- *)
(** *** MainContent.jsx *)

(** [resetLogs] of useLogPolling *)
Definition resetLogs (st : UI) : UI :=
  setLastIndex 0 (setLogs (fun _ => []) st).

Definition handleStartLoading (st : UI) : UI :=
  resetLogs (setIsLoading true st).

Definition handleStopLoading (st : UI) : UI :=
  setIsLoading false st.

(* ----------------------------------------------------------------- *)
(** *** useLogPolling.js *)

(** The effect installs the interval unless [!taskId || !isLoading]. *)
Definition logPollerArmed (st : UI) : bool :=
  JS.truthy (currentTaskId st) && isLoading st.

(** The period of the installed interval, in milliseconds. *)
Definition logPollInterval (st : UI) : option nat :=
  if logPollerArmed st then Some 1000%nat else None.

(** The request a tick of the interval issues. *)
Definition logsRequest (st : UI) : Api.Request :=
  Api.GetLogs (currentTaskId st) (lastIndex st).

(** [pollLogs], given what its fetch comes to. *)
Definition pollLogs (r : Api.Fetched Api.LogsData) : Handler unit :=
  fun st0 =>
    try_catch
      (update (fetch (logsRequest st0)) ;;
       data <- await_json r ;;
       match Api.logs data with
       | Some (entry :: more) =>
         update (setLogs (fun prevLogs => prevLogs ++ entry :: more)) ;;
         update (setLastIndex (Api.next_index data))
       | _ => ret tt
       end)
      (fun error => update (console_log (Warn "Error polling logs:")))
      st0.

(* ----------------------------------------------------------------- *)
(** *** ChatArea.jsx: the log-processing effect *)

(** The object literals of the effect sit inside the updaters passed
    to [setMessages], and [currentStep] is a variable the loop assigns
    to: an updater reads it when React runs the updater.  React runs
    an updater at the call when the component has nothing scheduled,
    and otherwise at the next render, which comes after the loop:
    [late] is the value the variable holds by then. *)
Definition readStep (late : option string) (locals : Locals) (st : UI)
  : option string :=
  if scheduled st then late else currentStep locals.

(** The body of [logs.forEach(log => ...)]: the locals and the page
    state before one entry, to the locals and the page state after. *)
Definition processLog (late : option string) (log : LogEntry)
  (acc : Locals * UI) : Locals * UI :=
  let '(locals, st) := acc in
  if negb (shouldShowLog (message log)) then (locals, st)
  else
    let isStepMessage := isStepLog (message log) in
    let isHumanQuestion := isHumanQuestion (message log) in
    let isUserResponse := isUserResponse (message log) in
    if isHumanQuestion then
      let question := JS.remove_first "[ASK_HUMAN] " (message log) in
      (locals,
       appendMessage (questionMessage question)
                     (setCurrentHumanQuestion question st))
    else if isUserResponse then
      let response := JS.remove_first "[USER_RESPONSE] " (message log) in
      (locals, appendMessage (responseMessage response) st)
    else if isStepMessage then
      let st1 :=
        if JS.truthy (currentStep locals)
           && negb (Nat.eqb (List.length (currentStepMessages locals)) 0)
        then fold_left (fun s msg => appendMessage (plainBot msg) s)
                       (currentStepMessages locals) st
        else st in
      (mkLocals (Some (message log)) [],
       appendMessage (stepMessage (message log) (readStep late locals st1))
                     st1)
    else if JS.truthy (currentStep locals) then
      (mkLocals (currentStep locals)
                (currentStepMessages locals ++ [message log]),
       appendMessage (inStepMessage (message log) (readStep late locals st))
                     st)
    else
      (locals, appendMessage (plainBot (message log)) st).

(** The loop over an array of entries. *)
Definition forEachLog (late : option string) (entries : list LogEntry)
  (acc : Locals * UI) : Locals * UI :=
  fold_left (fun a log => processLog late log a) entries acc.

(** The value [currentStep] holds when the loop over [entries] has
    ended.  The locals do not depend on what the updaters read, so any
    [late] serves to run the loop for them. *)
Definition stepAfterLoop (entries : list LogEntry) (st : UI)
  : option string :=
  currentStep (fst (forEachLog None entries (noStep, st))).

(** The effect with dependency [[logs]].  It runs after a render has
    been committed. *)
Definition processLogs (st : UI) : UI :=
  match logs st with
  | [] => st
  | _ :: _ =>
    snd (forEachLog (stepAfterLoop (logs st) (rendered st)) (logs st)
                    (noStep, rendered st))
  end.

(* ----------------------------------------------------------------- *)
(** *** ChatArea.jsx: the status-polling effect *)

(** The effect installs the interval unless [!currentTaskId]. *)
Definition statusPollerArmed (st : UI) : bool :=
  JS.truthy (currentTaskId st).

Definition statusPollInterval (st : UI) : option nat :=
  if statusPollerArmed st then Some 1000%nat else None.

Definition statusRequest (st : UI) : Api.Request :=
  Api.GetStatus (currentTaskId st).

(** The interval callback, given what its fetch comes to. *)
Definition pollStatus (r : Api.Fetched Api.StatusData) : Handler unit :=
  fun st0 =>
    try_catch
      (update (fetch (statusRequest st0)) ;;
       data <- await_json r ;;
       if (Api.status data =? "awaiting_human")%string then
         update (setIsAwaitingHuman true) ;;
         if isLoading st0 then update handleStopLoading else ret tt
       else if (Api.status data =? "completed")%string then
         update (setIsAwaitingHuman false) ;;
         update handleStopLoading ;;
         match Api.response data with
         | Some text =>
           if JS.truthy_string text
           then update (appendMessage (plainBot text))
           else ret tt
         | None => ret tt
         end ;;
         update (setCurrentTaskId None)
       else if (Api.status data =? "error")%string then
         update (setIsAwaitingHuman false) ;;
         update handleStopLoading ;;
         update (setCurrentTaskId None)
       else ret tt)
      (fun error => update (console_log (Warn "Error polling status:")))
      st0.

(* ----------------------------------------------------------------- *)
(** *** ChatArea.jsx: the input field and [handleSendMessage] *)

(** [disabled={isLoading && !isAwaitingHuman}] *)
Definition inputDisabled (st : UI) : bool :=
  isLoading st && negb (isAwaitingHuman st).

(** [!inputValue.trim() || (isLoading && !isAwaitingHuman)] *)
Definition sendRefused (st : UI) : bool :=
  negb (JS.truthy_string (JS.trim (inputValue st)))
  || (isLoading st && negb (isAwaitingHuman st)).

(** [isAwaitingHuman && currentTaskId] *)
Definition answering (st : UI) : bool :=
  isAwaitingHuman st && JS.truthy (currentTaskId st).

(** The branch that answers a question of the model. *)
Definition respond (r : Api.Fetched Api.SendData) : Handler unit :=
  fun st0 =>
    try_catch
      (update (fetch (Api.PostHumanResponse (currentTaskId st0)
                                            (inputValue st0))) ;;
       await_fetch r ;;
       update (setInputValue "") ;;
       update (setIsAwaitingHuman false) ;;
       update handleStartLoading)
      (fun error =>
         update (console_log (Error "Error sending human response:")) ;;
         update (appendMessage (plainBot respondFailed)))
      st0.

(** The branch that starts a new conversation. *)
Definition startConversation (r : Api.Fetched Api.SendData)
  : Handler unit :=
  fun st0 =>
    (update (fun st =>
       let newMessage := userMessage (inputValue st0) (now (clock st)) in
       let st1 := advance_clock st in
       advance_clock
         (setMessages
            (fun prev => prev ++ [newMessage; thinking (now (clock st1))])
            st1)) ;;
     update (setInputValue "") ;;
     update handleStartLoading ;;
     try_catch
       (update (fetch (Api.PostSend (inputValue st0))) ;;
        data <- await_json r ;;
        update (setCurrentTaskId (Api.task_id data)))
       (fun error =>
          update (console_log (Error "Error sending message:")) ;;
          update (fun st =>
            advance_clock
              (setMessages
                 (fun prev =>
                    let filteredMessages :=
                      filter (fun msg => negb (Sender_eqb (sender msg) bot))
                             prev in
                    filteredMessages ++ [plainBot sendFailed (now (clock st))])
                 st)) ;;
          update handleStopLoading))
      st0.

Definition handleSendMessage (r : Api.Fetched Api.SendData)
  : Handler unit :=
  fun st0 =>
    if sendRefused st0 then ret tt st0
    else if answering st0 then respond r st0
    else startConversation r st0.

(* ----------------------------------------------------------------- *)
(** *** The asynchronous functions, call and answer apart *)

(** An [async] function runs up to its first [await] when it is
    called and goes on when the awaited fetch is settled; other
    callbacks run in between.  What follows the [await] is written
    here on its own, to be run on the page as it is when the answer
    arrives. *)

(** The status callback from [await fetch(...)] on.  [loading] is the
    [isLoading] of the render that installed the interval.  Nothing
    in the callback looks at whether the interval is still installed:
    the answer to a fetch issued before [clearInterval] is handled
    like any other. *)
Definition statusAnswer (loading : bool)
  (r : Api.Fetched Api.StatusData) : Handler unit :=
  try_catch
    (data <- await_json r ;;
     if (Api.status data =? "awaiting_human")%string then
       update (setIsAwaitingHuman true) ;;
       if loading then update handleStopLoading else ret tt
     else if (Api.status data =? "completed")%string then
       update (setIsAwaitingHuman false) ;;
       update handleStopLoading ;;
       match Api.response data with
       | Some text =>
         if JS.truthy_string text
         then update (appendMessage (plainBot text))
         else ret tt
       | None => ret tt
       end ;;
       update (setCurrentTaskId None)
     else if (Api.status data =? "error")%string then
       update (setIsAwaitingHuman false) ;;
       update handleStopLoading ;;
       update (setCurrentTaskId None)
     else ret tt)
    (fun error => update (console_log (Warn "Error polling status:"))).

(** [pollLogs] from [await fetch(...)] on. *)
Definition logsAnswer (r : Api.Fetched Api.LogsData) : Handler unit :=
  try_catch
    (data <- await_json r ;;
     match Api.logs data with
     | Some (entry :: more) =>
       update (setLogs (fun prevLogs => prevLogs ++ entry :: more)) ;;
       update (setLastIndex (Api.next_index data))
     | _ => ret tt
     end)
    (fun error => update (console_log (Warn "Error polling logs:"))).

(** [handleSendMessage], answering a question: the call of [fetch],
    and the rest. *)
Definition respondCall (st0 : UI) : UI :=
  fetch (Api.PostHumanResponse (currentTaskId st0) (inputValue st0)) st0.

Definition respondAnswer (r : Api.Fetched Api.SendData) : Handler unit :=
  try_catch
    (await_fetch r ;;
     update (setInputValue "") ;;
     update (setIsAwaitingHuman false) ;;
     update handleStartLoading)
    (fun error =>
       update (console_log (Error "Error sending human response:")) ;;
       update (appendMessage (plainBot respondFailed))).

(** [handleSendMessage], starting a conversation: up to the call of
    [fetch], and the rest. *)
Definition sendCall (st0 : UI) : UI :=
  let newMessage := userMessage (inputValue st0) (now (clock st0)) in
  let st1 := advance_clock st0 in
  fetch (Api.PostSend (inputValue st0))
    (handleStartLoading
       (setInputValue ""
          (advance_clock
             (setMessages
                (fun prev =>
                   prev ++ [newMessage; thinking (now (clock st1))])
                st1)))).

Definition sendAnswer (r : Api.Fetched Api.SendData) : Handler unit :=
  try_catch
    (data <- await_json r ;;
     update (setCurrentTaskId (Api.task_id data)))
    (fun error =>
       update (console_log (Error "Error sending message:")) ;;
       update (fun st =>
         advance_clock
           (setMessages
              (fun prev =>
                 let filteredMessages :=
                   filter (fun msg => negb (Sender_eqb (sender msg) bot))
                          prev in
                 filteredMessages ++ [plainBot sendFailed (now (clock st))])
              st)) ;;
       update handleStopLoading).

(* ----------------------------------------------------------------- *)
(** *** A tick of the log interval followed by the render it causes *)

(** [setLogs] is only ever called with a longer array or, in
    [resetLogs], with an empty one, on which the effect returns at
    once; so the log-processing effect does something exactly when the
    array has grown. *)
Definition logTick (r : Api.Fetched Api.LogsData) (st : UI) : UI :=
  if logPollerArmed st then
    let st' := state_of (pollLogs r st) in
    if (List.length (logs st) <? List.length (logs st'))%nat
    then processLogs st'
    else st'
  else st.

Definition statusTick (r : Api.Fetched Api.StatusData) (st : UI) : UI :=
  if statusPollerArmed st then state_of (pollStatus r st) else st.

End Components.

(** The page as first rendered: no task, the greeting, an empty input. *)
Definition initialUI (t : string) : UI :=
  mkUI None false 0 [] [greeting t] "" false "" false 0 [] [].

(* ================================================================= *)
(** ** Views of the state used in the statements *)

(** A message with its timestamp blanked: two message lists agree up
    to the clock when their [untimed] images are equal. *)
Definition untimed (m : Message) : Message :=
  mkMessage (content m) (sender m) "" (step m)
            (isStepMessage m) (isQuestion m) (isResponse m).

(** Everything the log-processing effect has no business with: all of
    the page state but [messages], [currentHumanQuestion], the clock
    and the note of what React has scheduled. *)
Definition outsideChat (st : UI) :=
  (currentTaskId st, isLoading st, lastIndex st, logs st,
   inputValue st, isAwaitingHuman st, console st, sent st).

(** A page with nothing on it and a clock that always reads the same:
    running the effect there shows what the effect itself contributes. *)
Definition blank : UI :=
  mkUI None false 0 [] [] "" false "" false 0 [] [].

Definition epoch : nat -> string := fun _ => "".

(** The display list the log-processing effect builds from [entries]
    on the blank page, timestamps blanked. *)
Definition reconstruct (entries : list LogEntry) : list Message :=
  map untimed
      (messages (processLogs epoch (setLogs (fun _ => entries) blank))).

(** [l] is kept, in place and in order, at the head of [l']. *)
Definition extends {A : Type} (l l' : list A) : Prop :=
  exists k, l' = l ++ k.

(** The entries a response of [/logs] carries. *)
Definition entriesOf (d : Api.LogsData) : list LogEntry :=
  match Api.logs d with
  | Some l => l
  | None => []
  end.

(** [n] polls in a row, each one answered with JSON. *)
Definition pollAll (responses : list Api.LogsData) (st : UI) : UI :=
  fold_left (fun s d => state_of (pollLogs (Api.Json d) s)) responses st.

(** The [next_index] of the last response that carried an entry, or
    [start] when none did. *)
Definition lastAdvance (start : Z) (responses : list Api.LogsData) : Z :=
  fold_left (fun i d => match entriesOf d with
                        | [] => i
                        | _ :: _ => Api.next_index d
                        end) responses start.

(** [st'] is [st] with [k] appended to the messages, one clock read
    per message, and nothing changed outside the chat. *)
Definition chatOnly (st st' : UI) (k : list Message) : Prop :=
  messages st' = messages st ++ k
  /\ clock st' = clock st + List.length k
  /\ outsideChat st' = outsideChat st.

(** Two runs are in step when each appends to its own page and the two
    appended blocks agree up to timestamps. *)
Definition inStep (st1 st1' st2 st2' : UI) : Prop :=
  exists k1 k2,
    chatOnly st1 st1' k1 /\ chatOnly st2 st2' k2
    /\ map untimed k1 = map untimed k2.

(** A fetch that did not come to a JSON body. *)
Definition failed {A : Type} (r : Api.Fetched A) : bool :=
  match r with
  | Api.Json _ => false
  | _ => true
  end.

(** The fetch promise itself rejected (no answer at all). *)
Definition rejected {A : Type} (r : Api.Fetched A) : bool :=
  match r with
  | Api.Rejected => true
  | _ => false
  end.

(** [msg => msg.sender !== 'bot'] *)
Definition notBot (msg : Message) : bool :=
  negb (Sender_eqb (sender msg) bot).

(** The entries the in-step branch of the fold pushes on
    [currentStepMessages]: shown, and neither question, response nor
    step marker. *)
Definition bucketed (message : string) : bool :=
  shouldShowLog message
  && negb (isHumanQuestion message)
  && negb (isUserResponse message)
  && negb (isStepLog message).

(** What can happen to the page. *)
Inductive Operation :=
| LogsTick (r : Api.Fetched Api.LogsData)
| LogsEffect
| StatusTick (r : Api.Fetched Api.StatusData)
| Typing (text : string)
| Submit (r : Api.Fetched Api.SendData).

Definition perform (now : nat -> string) (op : Operation) (st : UI) : UI :=
  match op with
  | LogsTick r => logTick now r st
  | LogsEffect => processLogs now st
  | StatusTick r => statusTick now r st
  | Typing text => setInputValue text st
  | Submit r => state_of (handleSendMessage now r st)
  end.

(** [op] is a submit that starts a conversation and whose POST to
    [/send] fails: the one path into the [catch] of l.278-289. *)
Definition sendFails (op : Operation) (st : UI) : bool :=
  match op with
  | Submit r => negb (sendRefused st) && negb (answering st) && failed r
  | _ => false
  end.

(* ================================================================= *)
(** ** Scenarios *)

Definition info (text : string) : LogEntry := mkLog "INFO" text.

Definition at_noon : nat -> string := fun _ => "2025-01-01T12:00:00.000Z".

(** The user has typed [hello] on the fresh page. *)
Definition typed : UI := setInputValue "hello" (initialUI "2025-01-01").

(** [hello] was sent and the backend answered [{task_id: "t1"}]. *)
Definition running : UI :=
  state_of (handleSendMessage at_noon
              (Api.Json (Api.mkSendData (Some "t1"))) typed).

Definition firstLogs : Api.LogsData :=
  Api.mkLogsData (Some [info "Executing step 1"]) 1.

(** The first poll has delivered one entry; the effect has not run. *)
Definition fetched : UI := state_of (pollLogs (Api.Json firstLogs) running).

(** The agent asked a question and the status poll saw it. *)
Definition asked : UI :=
  setInputValue "blue"
    (statusTick at_noon
       (Api.Json (Api.mkStatusData "awaiting_human" None))
       (logTick at_noon
          (Api.Json (Api.mkLogsData
                       (Some [info "Executing step 1";
                              info "[ASK_HUMAN] which colour?"]) 2))
          running)).

(* ================================================================= *)
(** ** ChatArea.jsx: rendering of a message (l.194-212) *)

Module Html.

(** The double quote, the backtick and the line feed. *)
Definition quote : ascii := ascii_of_nat 34.
Definition backtick : ascii := ascii_of_nat 96.
Definition newline : ascii := ascii_of_nat 10.

(** [c] occurs in [s]. *)
Fixpoint occurs (c : ascii) (s : string) : bool :=
  match s with
  | EmptyString => false
  | String a r => Ascii.eqb a c || occurs c r
  end.

(** [s.replace(re, rep)] for a global pattern [re] of the one
    character [c] and a replacement text without dollar sign. *)
Fixpoint replaceAll (c : ascii) (rep : string) (s : string) : string :=
  match s with
  | EmptyString => EmptyString
  | String a r =>
    if Ascii.eqb a c then String.append rep (replaceAll c rep r)
    else String a (replaceAll c rep r)
  end.

(** [escapeHtml] (l.205-212): five passes, the ampersand first. *)
Definition escapeHtml (text : string) : string :=
  replaceAll "'" "&#039;"
    (replaceAll quote "&quot;"
       (replaceAll ">" "&gt;"
          (replaceAll "<" "&lt;"
             (replaceAll "&" "&amp;" text)))).

(** A word character of a pattern without the [u] and [i] flags:
    ASCII letters, digits and the underscore. *)
Definition wordChar (c : ascii) : bool :=
  let n := nat_of_ascii c in
  (((48 <=? n) && (n <=? 57)) || ((65 <=? n) && (n <=? 90))
   || ((97 <=? n) && (n <=? 122)) || (n =? 95))%nat.

(** The longest prefix whose characters satisfy [p], and the rest: a
    greedy repetition of [p]. *)
Fixpoint span (p : ascii -> bool) (s : string) : string * string :=
  match s with
  | EmptyString => (EmptyString, EmptyString)
  | String a r =>
    if p a then let '(taken, rest) := span p r in (String a taken, rest)
    else (EmptyString, s)
  end.

(** What stands before the first occurrence of [pat] in [s] and what
    stands after it: a lazy run of any characters followed by [pat]. *)
Fixpoint splitAt (pat s : string) : option (string * string) :=
  if String.prefix pat s
  then Some (EmptyString, JS.drop (String.length pat) s)
  else match s with
       | EmptyString => None
       | String a r =>
         match splitAt pat r with
         | Some (before, after) => Some (String a before, after)
         | None => None
         end
       end.

Definition q : string := String quote EmptyString.

(** The replacement the callback of l.195-197 returns. *)
Definition codeBlock (language code : string) : string :=
  String.append "<pre class="
 (String.append q
 (String.append
    "bg-gray-800 text-gray-200 rounded p-3 my-2 overflow-x-auto code-block"
 (String.append q
 (String.append "><code class="
 (String.append q
 (String.append "language-"
 (String.append language
 (String.append q
 (String.append ">"
 (String.append (escapeHtml (JS.trim code)) "</code></pre>")))))))))).

(** The replacement text of l.199, [$1] filled in. *)
Definition inlineCode (body : string) : string :=
  String.append "<code class="
 (String.append q
 (String.append "bg-gray-100 text-gray-800 px-1 rounded"
 (String.append q
 (String.append ">"
 (String.append body "</code>"))))).

(** A match of the code-fence pattern of l.195 at the head of [s]
    (three backticks, word characters, a line feed, then lazily any
    characters up to three backticks): the two groups and the length
    of the match.  After the three backticks the
    longest run of word characters has to be followed by a line feed
    (a shorter run is followed by a word character), and the code ends
    at the first three backticks that follow. *)
Definition fenceAt (s : string) : option (string * string * nat) :=
  if String.prefix "```" s then
    let '(language, rest) := span wordChar (JS.drop 3 s) in
    match rest with
    | EmptyString => None
    | String a body =>
      if Ascii.eqb a newline then
        match splitAt "```" body with
        | Some (code, _) =>
          Some (language, code,
                3 + String.length language + 1 + String.length code + 3)
        | None => None
        end
      else None
    end
  else None.

(** A match of the inline-code pattern of l.199 at the head of [s]
    (a backtick, one or more characters other than a backtick, a
    backtick): the group and the length of the match.  The longest run without a backtick has to be
    non-empty and followed by a backtick. *)
Definition inlineAt (s : string) : option (string * nat) :=
  match s with
  | EmptyString => None
  | String a r =>
    if Ascii.eqb a backtick then
      let '(body, rest) := span (fun c => negb (Ascii.eqb c backtick)) r in
      match body, rest with
      | String _ _, String _ _ => Some (body, String.length body + 2)
      | _, _ => None
      end
    else None
  end.

(** The global [replace] for the two patterns above: matches are
    taken from left to right and do not overlap; [skip] counts the
    characters of [s] that the last match still covers. *)
Fixpoint replaceFences (skip : nat) (s : string) {struct s} : string :=
  match s with
  | EmptyString => EmptyString
  | String a r =>
    match skip with
    | S k => replaceFences k r
    | O =>
      match fenceAt s with
      | Some (language, code, n) =>
        String.append (codeBlock language code) (replaceFences (n - 1) r)
      | None => String a (replaceFences 0 r)
      end
    end
  end.

Fixpoint replaceInline (skip : nat) (s : string) {struct s} : string :=
  match s with
  | EmptyString => EmptyString
  | String a r =>
    match skip with
    | S k => replaceInline k r
    | O =>
      match inlineAt s with
      | Some (body, n) =>
        String.append (inlineCode body) (replaceInline (n - 1) r)
      | None => String a (replaceInline 0 r)
      end
    end
  end.

(** [formatMessage] (l.194-203) *)
Definition formatMessage (message : string) : string :=
  let formattedMessage := replaceFences 0 message in
  let formattedMessage := replaceInline 0 formattedMessage in
  replaceAll newline "<br>" formattedMessage.

End Html.

(* ================================================================= *)
(** ** Browser.jsx *)

Module Browser.

(** The longest run of characters that are not white space at the
    head of [s]: a greedy repetition of the negated white-space
    class. *)
Fixpoint takeNonSpace (s : string) : string :=
  match s with
  | EmptyString => EmptyString
  | String c1 r1 =>
    if JS.ws1 c1 then EmptyString
    else
      match r1 with
      | EmptyString => String c1 (takeNonSpace r1)
      | String c2 r2 =>
        if JS.ws2 c1 c2 then EmptyString
        else
          match r2 with
          | EmptyString => String c1 (takeNonSpace r1)
          | String c3 r3 =>
            if JS.ws3 c1 c2 c3 then EmptyString
            else String c1 (takeNonSpace r1)
          end
      end
  end.

(** A match of the pattern of l.9 at the head of [s] (a colon, a
    space, [http], an optional [s], [://], one or more characters that
    are not white space): the group. *)
Definition urlAt (s : string) : option string :=
  if String.prefix ": https://" s then
    match takeNonSpace (JS.drop 10 s) with
    | EmptyString => None
    | String a r => Some (String.append "https://" (String a r))
    end
  else if String.prefix ": http://" s then
    match takeNonSpace (JS.drop 9 s) with
    | EmptyString => None
    | String a r => Some (String.append "http://" (String a r))
    end
  else None.

(** [message.match(...)]: the leftmost match, its group 1. *)
Fixpoint matchUrl (s : string) : option string :=
  match urlAt s with
  | Some url => Some url
  | None =>
    match s with
    | EmptyString => None
    | String _ r => matchUrl r
    end
  end.

(** The body of the loop of l.6-14 for one entry: the url it returns,
    if it returns. *)
Definition urlOfLog (log : LogEntry) : option string :=
  if JS.includes (message log) "Session debug_url:" then
    match matchUrl (message log) with
    | Some url => if JS.truthy_string url then Some url else None
    | None => None
    end
  else None.

(** The loop, on the entries from the last to the first. *)
Fixpoint firstUrl (reversed : list LogEntry) : option string :=
  match reversed with
  | [] => None
  | log :: earlier =>
    match urlOfLog log with
    | Some url => Some url
    | None => firstUrl earlier
    end
  end.

Definition extractUrlFromLogs (logs : list LogEntry) : option string :=
  match logs with
  | [] => None
  | _ :: _ => firstUrl (rev logs)
  end.

(** One render of the component: the [url] state it leaves, which is
    the [src] of the frame (l.23-28). *)
Definition render (logs : list LogEntry) (url : string) : string :=
  match extractUrlFromLogs logs with
  | Some newUrl =>
    if JS.truthy_string newUrl && negb (newUrl =? url)%string
    then newUrl else url
  | None => url
  end.

(** Renders in a row, one per value of the [logs] prop. *)
Definition renders (props : list (list LogEntry)) (url : string) : string :=
  fold_left (fun u logs => render logs u) props url.

(** Printable ASCII: what a url is written in. *)
Definition urlChar (c : ascii) : bool :=
  ((32 <? nat_of_ascii c) && (nat_of_ascii c <? 127))%nat.

Fixpoint urlText (s : string) : bool :=
  match s with
  | EmptyString => true
  | String c r => urlChar c && urlText r
  end.

End Browser.

(* ================================================================= *)
(** ** Logger.jsx: styling and filtering of a log line *)

Module Logger.

Definition getLogClassName (log : LogEntry) : string :=
  let className := "mb-1 leading-relaxed " in
  if JS.includes (message log) "thoughts"
     || JS.includes (message log) "思考"
  then String.append className "text-blue-400 italic"
  else if JS.includes (message log) "执行工具"
          || JS.includes (message log) "Activating tool"
  then String.append className "text-purple-500 font-semibold"
  else if (level log =? "ERROR")%string
  then String.append className "text-red-500"
  else if (level log =? "WARNING")%string
  then String.append className "text-yellow-500"
  else if (level log =? "INFO")%string
  then String.append className "text-green-400"
  else String.append className "text-gray-300".

(** [shouldShowLog] of the Logger, for the value [filter] of the
    select box. *)
Definition shouldShowLog (filter : string) (log : LogEntry) : bool :=
  if (filter =? "all")%string then true
  else
    let message := message log in
    if (filter =? "info")%string then
      (level log =? "INFO")%string
      || (negb (JS.includes message "ERROR")
          && negb (JS.includes message "WARNING")
          && negb (JS.includes message "执行工具"))
    else if (filter =? "warning")%string then
      (level log =? "WARNING")%string || JS.includes message "WARNING"
    else if (filter =? "error")%string then
      (level log =? "ERROR")%string || JS.includes message "ERROR"
    else if (filter =? "tool")%string then
      JS.includes message "执行工具" || JS.includes message "Activating tool"
    else true.

(** What the list shows under [filter] (l.152). *)
Definition shown (filter : string) (logs : list LogEntry) : list LogEntry :=
  List.filter (shouldShowLog filter) logs.

End Logger.

(* ================================================================= *)
(** ** Further views of the page *)

(** The three values of [data.status] the status handler acts on. *)
Definition handled (status : string) : bool :=
  (status =? "awaiting_human")%string
  || (status =? "completed")%string
  || (status =? "error")%string.

(** A status poll that failed, or saw a status the handler has no
    branch for. *)
Definition uneventful (r : Api.Fetched Api.StatusData) : bool :=
  match r with
  | Api.Json data => negb (handled (Api.status data))
  | _ => true
  end.

(** Operations one after the other. *)
Definition performAll (now : nat -> string) (ops : list Operation)
  (st : UI) : UI :=
  fold_left (fun s op => perform now op s) ops st.

(** Busy, not awaiting an answer, and without a task. *)
Definition stuck (st : UI) : bool :=
  negb (JS.truthy (currentTaskId st))
  && isLoading st
  && negb (isAwaitingHuman st).

(** Only blanks, tabs and line breaks. *)
Fixpoint allSpaces (s : string) : bool :=
  match s with
  | EmptyString => true
  | String c r => JS.ws1 c && allSpaces r
  end.

(* ================================================================= *)
(** ** Calls and answers as events of their own *)

(** What can happen to the page, with the answer to a request apart
    from the call that issued it.  An answer may come at any time
    after its call. *)
Inductive Event :=
| StatusFetch
| StatusAnswer (loading : bool) (r : Api.Fetched Api.StatusData)
| LogsFetch
| LogsAnswer (r : Api.Fetched Api.LogsData)
| LogsRendered
| Keyed (text : string)
| SendPressed
| SendAnswer (r : Api.Fetched Api.SendData)
| RespondAnswer (r : Api.Fetched Api.SendData).

Definition occur (now : nat -> string) (ev : Event) (st : UI) : UI :=
  match ev with
  | StatusFetch =>
    if statusPollerArmed st then fetch (statusRequest st) st else st
  | StatusAnswer loading r => state_of (statusAnswer now loading r st)
  | LogsFetch =>
    if logPollerArmed st then fetch (logsRequest st) st else st
  | LogsAnswer r => state_of (logsAnswer r st)
  | LogsRendered => processLogs now st
  | Keyed text => setInputValue text st
  | SendPressed =>
    if sendRefused st then st
    else if answering st then respondCall st
    else sendCall now st
  | SendAnswer r => state_of (sendAnswer now r st)
  | RespondAnswer r => state_of (respondAnswer now r st)
  end.

(** Two ticks of the status interval, the second before the first
    fetch is settled (an answer that takes longer than the period of
    the interval), and then the two answers, in order. *)
Definition twoInFlight (now : nat -> string)
  (r1 r2 : Api.Fetched Api.StatusData) (st : UI) : UI :=
  if statusPollerArmed st then
    let called := fetch (statusRequest st) (fetch (statusRequest st) st) in
    state_of (statusAnswer now (isLoading st) r2
                (state_of (statusAnswer now (isLoading st) r1 called)))
  else st.

(** [hello] was sent; the POST to [/send] is in flight. *)
Definition sending : UI := sendCall at_noon typed.

(* ================================================================= *)
(** ** Views of the rendering *)

(** What [escapeHtml] makes of one character. *)
Definition escapeChar (c : ascii) : string :=
  if Ascii.eqb c "&" then "&amp;"
  else if Ascii.eqb c "<" then "&lt;"
  else if Ascii.eqb c ">" then "&gt;"
  else if Ascii.eqb c Html.quote then "&quot;"
  else if Ascii.eqb c "'" then "&#039;"
  else String c EmptyString.

(** Only word characters. *)
Fixpoint allWord (s : string) : bool :=
  match s with
  | EmptyString => true
  | String c r => Html.wordChar c && allWord r
  end.

(** A fenced block: three backticks, a language, a line feed, the
    code, three backticks. *)
Definition fence (language code : string) : string :=
  String.append "```"
 (String.append language
 (String Html.newline (String.append code "```"))).

(** The text of [Html.codeBlock] before the code. *)
Definition codeOpen (language : string) : string :=
  String.append "<pre class="
 (String.append Html.q
 (String.append
    "bg-gray-800 text-gray-200 rounded p-3 my-2 overflow-x-auto code-block"
 (String.append Html.q
 (String.append "><code class="
 (String.append Html.q
 (String.append "language-"
 (String.append language
 (String.append Html.q ">")))))))).

(** [s.replace(re, '<br>')] for the global pattern of a line feed. *)
Definition lineBreaks (s : string) : string :=
  Html.replaceAll Html.newline "<br>" s.

(* ================================================================= *)
(** ** Views of the browser frame and of the logger *)

(** A blank, a tab or a line break occurs in [s]. *)
Fixpoint anySpace (s : string) : bool :=
  match s with
  | EmptyString => false
  | String c r => JS.ws1 c || anySpace r
  end.

(** The line on which the backend announces the address of the
    browser session. *)
Definition debugLine (url : string) : string :=
  String.append "Session debug_url: " url.

Definition red : string := "mb-1 leading-relaxed text-red-500".
Definition yellow : string := "mb-1 leading-relaxed text-yellow-500".
Definition green : string := "mb-1 leading-relaxed text-green-400".
Definition purple : string := "mb-1 leading-relaxed text-purple-500 font-semibold".

(* ================================================================= *)
(** ** web: chat/preview/index.tsx, the two dispatchers (l.134-186) *)

Module Preview.

(** The fields of a chat message the dispatchers read; [Message] is
    declared in [@/types/chat]. *)
Record Message := mkMessage {
  type : string;
  name : string;       (* content.name *)
  command : string     (* content.args.command *)
}.

Inductive Pane :=
| BrowserPagePreview
| StrReplaceEditorPreview
| PythonExecuteScriptPreview
| PythonExecuteResultPreview
| NotPreview.

Inductive Caption :=
| Browsing
| Viewing
| Editing
| RunningScript
| FinishedScript
| Idle.

(** [message?.type === t] *)
Definition typeIs (message : option Message) (t : string) : bool :=
  match message with
  | Some m => (type m =? t)%string
  | None => false
  end.

Definition nameIs (message : option Message) (n : string) : bool :=
  match message with
  | Some m => (name m =? n)%string
  | None => false
  end.

Definition commandIs (message : option Message) (c : string) : bool :=
  match message with
  | Some m => (command m =? c)%string
  | None => false
  end.

Definition PreviewContent (message : option Message) : Pane :=
  if typeIs message "agent:browser:browse:complete"
  then BrowserPagePreview
  else if typeIs message "agent:tool:execute:start"
          && nameIs message "str_replace_editor"
          && commandIs message "view"
  then StrReplaceEditorPreview
  else if typeIs message "agent:tool:execute:start"
          && nameIs message "str_replace_editor"
  then StrReplaceEditorPreview
  else if typeIs message "agent:tool:execute:start"
          && nameIs message "python_execute"
  then PythonExecuteScriptPreview
  else if typeIs message "agent:tool:execute:complete"
          && nameIs message "python_execute"
  then PythonExecuteResultPreview
  else NotPreview.

Definition PreviewDescription (message : option Message) : Caption :=
  if typeIs message "agent:browser:browse:complete"
  then Browsing
  else if typeIs message "agent:tool:execute:start"
          && nameIs message "str_replace_editor"
          && commandIs message "view"
  then Viewing
  else if typeIs message "agent:tool:execute:start"
          && nameIs message "str_replace_editor"
  then Editing
  else if typeIs message "agent:tool:execute:start"
          && nameIs message "python_execute"
  then RunningScript
  else if typeIs message "agent:tool:execute:complete"
          && nameIs message "python_execute"
  then FinishedScript
  else Idle.

(** The pane a caption speaks of. *)
Definition paneOf (caption : Caption) : Pane :=
  match caption with
  | Browsing => BrowserPagePreview
  | Viewing | Editing => StrReplaceEditorPreview
  | RunningScript => PythonExecuteScriptPreview
  | FinishedScript => PythonExecuteResultPreview
  | Idle => NotPreview
  end.

End Preview.

(* ================================================================= *)
(** ** What a step of the chat adds to the message list *)

Lemma chatOnly_refl (st : UI) : chatOnly st st [].
Proof.
  unfold chatOnly. rewrite app_nil_r. simpl. auto with arith.
Qed.

Lemma chatOnly_trans (st1 st2 st3 : UI) (k1 k2 : list Message) :
  chatOnly st1 st2 k1 -> chatOnly st2 st3 k2 -> chatOnly st1 st3 (k1 ++ k2).
Proof.
  intros (Hm1 & Hc1 & Ho1) (Hm2 & Hc2 & Ho2). unfold chatOnly.
  rewrite Hm2, Hm1, Hc2, Hc1, Ho2, Ho1, app_assoc, length_app.
  repeat split. lia.
Qed.

Lemma chatOnly_appendMessage now (literal : string -> Message) (st : UI) :
  chatOnly st (appendMessage now literal st) [literal (now (clock st))].
Proof.
  unfold chatOnly, appendMessage. simpl. repeat split. lia.
Qed.

Lemma chatOnly_setCurrentHumanQuestion (q : string) (st : UI) :
  chatOnly st (setCurrentHumanQuestion q st) [].
Proof.
  unfold chatOnly. simpl. rewrite app_nil_r. auto with arith.
Qed.

Lemma inStep_refl (st1 st2 : UI) : inStep st1 st1 st2 st2.
Proof.
  exists [], []. auto using chatOnly_refl.
Qed.

Lemma inStep_trans (a a' a'' b b' b'' : UI) :
  inStep a a' b b' -> inStep a' a'' b' b'' -> inStep a a'' b b''.
Proof.
  intros (k1 & k2 & H1 & H2 & E) (j1 & j2 & G1 & G2 & F).
  exists (k1 ++ j1), (k2 ++ j2). split; [|split].
  - exact (chatOnly_trans a a' a'' k1 j1 H1 G1).
  - exact (chatOnly_trans b b' b'' k2 j2 H2 G2).
  - rewrite !map_app. congruence.
Qed.

Lemma inStep_appendMessage now1 now2 (literal1 literal2 : string -> Message)
  (st1 st2 : UI) :
  (forall t1 t2, untimed (literal1 t1) = untimed (literal2 t2)) ->
  inStep st1 (appendMessage now1 literal1 st1)
         st2 (appendMessage now2 literal2 st2).
Proof.
  intros H. eexists _, _. split; [|split].
  1, 2: apply chatOnly_appendMessage.
  simpl. f_equal. apply H.
Qed.

Lemma inStep_flush now1 now2 (bucket : list string) :
  forall st1 st2,
    inStep st1 (fold_left (fun s msg => appendMessage now1 (plainBot msg) s)
                          bucket st1)
           st2 (fold_left (fun s msg => appendMessage now2 (plainBot msg) s)
                          bucket st2).
Proof.
  induction bucket as [|msg bucket IH]; intros st1 st2; simpl.
  - apply inStep_refl.
  - eapply inStep_trans; [|apply IH].
    apply inStep_appendMessage. reflexivity.
Qed.

Lemma scheduled_appendMessage now (literal : string -> Message) (st : UI) :
  scheduled (appendMessage now literal st) = true.
Proof. reflexivity. Qed.

(** Listing a bucket schedules an update as soon as the bucket holds a
    line. *)
Lemma scheduled_flush now (bucket : list string) :
  forall st,
    scheduled (fold_left (fun s msg => appendMessage now (plainBot msg) s)
                         bucket st)
    = scheduled st || negb (Nat.eqb (List.length bucket) 0).
Proof.
  induction bucket as [|msg bucket IH]; intros st; simpl.
  - rewrite orb_false_r. reflexivity.
  - rewrite IH, scheduled_appendMessage, orb_true_r. reflexivity.
Qed.

Lemma forEachLog_cons now late (log : LogEntry) (entries : list LogEntry)
  (acc : Locals * UI) :
  forEachLog now late (log :: entries) acc
  = forEachLog now late entries (processLog now late log acc).
Proof. reflexivity. Qed.

(** The locals of the loop depend on the entries alone: not on the
    page, not on the clock, not on what the updaters read. *)
Lemma processLog_locals now1 now2 late1 late2 (log : LogEntry)
  (locals : Locals) (st1 st2 : UI) :
  fst (processLog now1 late1 log (locals, st1))
  = fst (processLog now2 late2 log (locals, st2)).
Proof.
  unfold processLog.
  destruct (shouldShowLog (message log)); simpl; [|reflexivity].
  destruct (isHumanQuestion (message log)); [reflexivity|].
  destruct (isUserResponse (message log)); [reflexivity|].
  destruct (isStepLog (message log)); [reflexivity|].
  destruct (JS.truthy (currentStep locals)); reflexivity.
Qed.

Lemma forEachLog_locals now1 now2 late1 late2 (entries : list LogEntry) :
  forall (locals : Locals) (st1 st2 : UI),
    fst (forEachLog now1 late1 entries (locals, st1))
    = fst (forEachLog now2 late2 entries (locals, st2)).
Proof.
  induction entries as [|log entries IH]; intros locals st1 st2;
    [reflexivity|].
  rewrite !forEachLog_cons.
  pose proof (processLog_locals now1 now2 late1 late2 log locals st1 st2)
    as Hl.
  destruct (processLog now1 late1 log (locals, st1)) as [l1 s1].
  destruct (processLog now2 late2 log (locals, st2)) as [l2 s2].
  simpl in Hl. subst l2. apply IH.
Qed.

Lemma stepAfterLoop_any now1 now2 late (entries : list LogEntry)
  (st1 st2 : UI) :
  stepAfterLoop now1 entries st1
  = currentStep (fst (forEachLog now2 late entries (noStep, st2))).
Proof.
  unfold stepAfterLoop. f_equal. apply forEachLog_locals.
Qed.

(** One entry, met by two runs that agree on what is scheduled and on
    what the updaters will read: the two pages stay in step and still
    agree on what is scheduled. *)
Lemma processLog_inStep now1 now2 late (log : LogEntry) (locals : Locals)
  (st1 st2 : UI) :
  scheduled st1 = scheduled st2 ->
  inStep st1 (snd (processLog now1 late log (locals, st1)))
         st2 (snd (processLog now2 late log (locals, st2)))
  /\ scheduled (snd (processLog now1 late log (locals, st1)))
     = scheduled (snd (processLog now2 late log (locals, st2))).
Proof.
  intros Hs. unfold processLog.
  destruct (shouldShowLog (message log)); simpl;
    [|split; [apply inStep_refl|exact Hs]].
  destruct (isHumanQuestion (message log)); simpl.
  { split; [|reflexivity].
    eapply inStep_trans.
    - exists [], [].
      split; [|split]; try apply chatOnly_setCurrentHumanQuestion.
      reflexivity.
    - apply inStep_appendMessage. reflexivity. }
  destruct (isUserResponse (message log)); simpl.
  { split; [|reflexivity]. apply inStep_appendMessage. reflexivity. }
  destruct (isStepLog (message log)); simpl.
  { split; [|reflexivity].
    destruct (JS.truthy (currentStep locals)
              && negb (Nat.eqb (List.length (currentStepMessages locals)) 0)).
    - eapply inStep_trans; [apply inStep_flush|].
      apply inStep_appendMessage. intros t1 t2.
      unfold readStep. rewrite !scheduled_flush, Hs. reflexivity.
    - apply inStep_appendMessage. intros t1 t2.
      unfold readStep. rewrite Hs. reflexivity. }
  destruct (JS.truthy (currentStep locals)); simpl.
  - split; [|reflexivity]. apply inStep_appendMessage. intros t1 t2.
    unfold readStep. rewrite Hs. reflexivity.
  - split; [|reflexivity]. apply inStep_appendMessage. reflexivity.
Qed.

Lemma forEachLog_inStep now1 now2 late (entries : list LogEntry) :
  forall (locals : Locals) (st1 st2 : UI),
    scheduled st1 = scheduled st2 ->
    inStep st1 (snd (forEachLog now1 late entries (locals, st1)))
           st2 (snd (forEachLog now2 late entries (locals, st2))).
Proof.
  induction entries as [|log entries IH]; intros locals st1 st2 Hs.
  - apply inStep_refl.
  - rewrite !forEachLog_cons.
    destruct (processLog_inStep now1 now2 late log locals st1 st2 Hs)
      as [Hi Hs'].
    pose proof (processLog_locals now1 now2 late late log locals st1 st2)
      as Hl.
    destruct (processLog now1 late log (locals, st1)) as [l1 s1].
    destruct (processLog now2 late log (locals, st2)) as [l2 s2].
    simpl in Hl, Hi, Hs'. subst l2.
    eapply inStep_trans; [exact Hi|apply IH; exact Hs'].
Qed.

Lemma chatOnly_rendered (st st' : UI) (k : list Message) :
  chatOnly (rendered st) st' k -> chatOnly st st' k.
Proof. intros H. exact H. Qed.

(* ================================================================= *)
(** ** The Message Reconstructor *)

Lemma processLogs_chatOnly now (st : UI) :
  exists k,
    chatOnly st (processLogs now st) k
    /\ map untimed k = reconstruct (logs st).
Proof.
  unfold reconstruct, processLogs. cbn [logs setLogs].
  destruct (logs st) as [|log entries] eqn:Hlogs.
  - exists []. split; [apply chatOnly_refl|reflexivity].
  - set (entries' := log :: entries).
    rewrite (stepAfterLoop_any epoch now None entries'
               (rendered (setLogs (fun _ => entries') blank))
               (rendered st)).
    fold (stepAfterLoop now entries' (rendered st)).
    destruct (forEachLog_inStep now epoch
                (stepAfterLoop now entries' (rendered st)) entries'
                noStep (rendered st)
                (rendered (setLogs (fun _ => entries') blank)) eq_refl)
      as (k1 & k2 & H1 & (H2 & _) & E).
    exists k1. split; [apply chatOnly_rendered; exact H1|].
    rewrite H2. exact E.
Qed.

Lemma chatOnly_logs (st st' : UI) (k : list Message) :
  chatOnly st st' k -> logs st' = logs st.
Proof.
  intros (_ & _ & H). unfold outsideChat in H. congruence.
Qed.

(** C1 (amended).  The fold is deterministic but it appends: whatever
    the page and the clock, one run of the log-processing effect adds
    to the end of the message list a block that, timestamps aside, is
    [reconstruct] of the log sequence, [step] keys as the page holds
    them included, and changes nothing else but the pending question
    and the clock; a second run over the same sequence adds the same
    block once more. *)
Theorem processLogs_appends_the_reconstruction now (st : UI) :
  exists k k',
    chatOnly st (processLogs now st) k
    /\ map untimed k = reconstruct (logs st)
    /\ chatOnly (processLogs now st) (processLogs now (processLogs now st)) k'
    /\ map untimed k' = reconstruct (logs st)
    /\ messages (processLogs now (processLogs now st))
       = messages st ++ k ++ k'.
Proof.
  destruct (processLogs_chatOnly now st) as (k & H & E).
  destruct (processLogs_chatOnly now (processLogs now st)) as (k' & H' & E').
  rewrite (chatOnly_logs _ _ _ H) in E'.
  exists k, k'. repeat split; try assumption; try apply H; try apply H'.
  destruct H as (Hm & _), H' as (Hm' & _).
  rewrite Hm', Hm, app_assoc. reflexivity.
Qed.

(** The scenario of the specification: [hello] is sent, the backend
    names the task [t1], and the first poll brings [Executing step 1]. *)
Example hello_then_step_1 :
  map content (messages (logTick at_noon (Api.Json firstLogs) running))
  = [content (greeting ""); "hello"; "Думаю..."; "Executing step 1"]
  /\ map isStepMessage
       (messages (logTick at_noon (Api.Json firstLogs) running))
     = [true; false; true; true].
Proof. split; reflexivity. Qed.

(** A log with two steps.  The first header is the first update of
    the run and reads [currentStep] at the call, when it is still
    [null]; every later message that has the key reads it after the
    loop and so carries the last step of the run, the line of the
    first step and the second header included. *)
Example two_steps_carry_the_last_step :
  map (fun m => (content m, step m))
      (messages
         (processLogs at_noon
            (setLogs (fun _ => [info "Executing step 1"; info "searching";
                                info "Executing step 2"; info "reading"])
                     blank)))
  = [("Executing step 1", Some None);
     ("searching", Some (Some "Executing step 2"));
     ("searching", None);
     ("Executing step 2", Some (Some "Executing step 2"));
     ("reading", Some (Some "Executing step 2"))].
Proof. reflexivity. Qed.

(** C1 (as stated) fails: on the page that has just received its first
    log entry, running the effect twice leaves one message more than
    running it once. *)
Lemma second_run_duplicates :
  map untimed (messages (processLogs at_noon (processLogs at_noon fetched)))
  <> map untimed (messages (processLogs at_noon fetched)).
Proof.
  vm_compute. intros H.
  apply (f_equal (@List.length Message)) in H. discriminate H.
Qed.

(* ================================================================= *)
(** ** The Log Poller *)

Lemma pollLogs_json (d : Api.LogsData) (st : UI) :
  pollLogs (Api.Json d) st
  = Normal tt
      (match entriesOf d with
       | [] => fetch (logsRequest st) st
       | _ :: _ =>
         setLastIndex (Api.next_index d)
           (setLogs (fun prevLogs => prevLogs ++ entriesOf d)
              (fetch (logsRequest st) st))
       end).
Proof.
  unfold pollLogs, entriesOf, try_catch, bind, update, await_json, ret.
  destruct (Api.logs d) as [[|entry more]|]; reflexivity.
Qed.

(** C10.  A poll answered without entries ([logs] missing or empty)
    completes, records the request it sent and changes nothing else:
    cursor and log list stay as they were, whatever [next_index] the
    answer carries. *)
Theorem pollLogs_without_entries (d : Api.LogsData) (st : UI) :
  entriesOf d = [] ->
  pollLogs (Api.Json d) st = Normal tt (fetch (logsRequest st) st)
  /\ lastIndex (state_of (pollLogs (Api.Json d) st)) = lastIndex st
  /\ logs (state_of (pollLogs (Api.Json d) st)) = logs st.
Proof.
  intros H. rewrite pollLogs_json, H. repeat split.
Qed.

Lemma pollLogs_without_entries_witness :
  entriesOf (Api.mkLogsData (Some []) 7) = []
  /\ (pollLogs (Api.Json (Api.mkLogsData (Some []) 7)) fetched
      = Normal tt (fetch (logsRequest fetched) fetched)
      /\ lastIndex (state_of (pollLogs (Api.Json (Api.mkLogsData (Some []) 7))
                                       fetched)) = lastIndex fetched
      /\ logs (state_of (pollLogs (Api.Json (Api.mkLogsData (Some []) 7))
                                  fetched)) = logs fetched).
Proof.
  split; [reflexivity|].
  apply (pollLogs_without_entries (Api.mkLogsData (Some []) 7) fetched).
  reflexivity.
Defined.

Lemma pollAll_cons (d : Api.LogsData) (responses : list Api.LogsData)
  (st : UI) :
  pollAll (d :: responses) st
  = pollAll responses (state_of (pollLogs (Api.Json d) st)).
Proof. reflexivity. Qed.

(** C2 (amended).  After any sequence of polls answered with JSON the
    cursor is the [next_index] of the last answer that carried an
    entry (the cursor it started from when none did), the log list is
    the old one followed by all entries received, in order, and its
    length is the old length plus the sum of the lengths received. *)
Theorem pollAll_cursor_and_logs (responses : list Api.LogsData) :
  forall st : UI,
    lastIndex (pollAll responses st) = lastAdvance (lastIndex st) responses
    /\ logs (pollAll responses st)
       = logs st ++ concat (map entriesOf responses)
    /\ List.length (logs (pollAll responses st))
       = List.length (logs st)
         + list_sum (map (fun d => List.length (entriesOf d)) responses).
Proof.
  induction responses as [|d responses IH]; intros st.
  - simpl. rewrite app_nil_r. auto with arith.
  - rewrite pollAll_cons, pollLogs_json.
    unfold lastAdvance. simpl fold_left. fold lastAdvance.
    simpl map. simpl concat. simpl list_sum.
    destruct (entriesOf d) as [|entry more] eqn:Hd; simpl state_of.
    + destruct (IH (fetch (logsRequest st) st)) as (H1 & H2 & H3).
      split; [exact H1|]. split; [exact H2|exact H3].
    + destruct (IH (setLastIndex (Api.next_index d)
                      (setLogs (fun prevLogs => prevLogs ++ entry :: more)
                         (fetch (logsRequest st) st)))) as (H1 & H2 & H3).
      split; [exact H1|]. split.
      * rewrite H2. simpl logs. rewrite <- app_assoc. reflexivity.
      * rewrite H3. simpl logs. rewrite length_app. simpl. lia.
Qed.

(** C2 (as stated) fails: after an answer with one entry and
    [next_index] 1 and then an answer with no entry and [next_index]
    7, the cursor is 1, not the 7 of the last answer. *)
Lemma cursor_ignores_empty_answer :
  lastIndex (pollAll [firstLogs; Api.mkLogsData (Some []) 7] running) = 1%Z
  /\ lastIndex (pollAll [firstLogs; Api.mkLogsData (Some []) 7] running)
     <> Api.next_index (Api.mkLogsData (Some []) 7).
Proof.
  split; [reflexivity|]. vm_compute. discriminate.
Qed.

Lemma pollLogs_failed (r : Api.Fetched Api.LogsData) (st : UI) :
  failed r = true ->
  pollLogs r st
  = Normal tt (console_log (Warn "Error polling logs:")
                 (fetch (logsRequest st) st)).
Proof.
  destruct r; intros H; try discriminate H; reflexivity.
Qed.

Lemma pollLogs_sent (r : Api.Fetched Api.LogsData) (st : UI) :
  sent (state_of (pollLogs r st)) = sent st ++ [logsRequest st].
Proof.
  destruct r as [| |d]; try reflexivity.
  rewrite pollLogs_json. destruct (entriesOf d); reflexivity.
Qed.

Lemma pollLogs_messages (r : Api.Fetched Api.LogsData) (st : UI) :
  messages (state_of (pollLogs r st)) = messages st.
Proof.
  destruct r as [| |d]; try reflexivity.
  rewrite pollLogs_json. destruct (entriesOf d); reflexivity.
Qed.

(** C5.  A poll whose fetch rejects or whose body does not parse
    completes normally: the exception ends in the [catch], which writes
    one warning to the console.  Cursor, log list and messages are
    untouched, the interval stays as it was (same period, no backoff),
    and the next tick, whatever it comes to, sends the very request
    that has just failed. *)
Theorem pollLogs_failure_is_swallowed now (r : Api.Fetched Api.LogsData)
  (st : UI) :
  failed r = true ->
  completes (pollLogs r st) = true
  /\ lastIndex (state_of (pollLogs r st)) = lastIndex st
  /\ logs (state_of (pollLogs r st)) = logs st
  /\ messages (state_of (pollLogs r st)) = messages st
  /\ messages (logTick now r st) = messages st
  /\ console (state_of (pollLogs r st))
     = console st ++ [Warn "Error polling logs:"]
  /\ logPollInterval (state_of (pollLogs r st)) = logPollInterval st
  /\ logsRequest (state_of (pollLogs r st)) = logsRequest st
  /\ forall r',
       sent (state_of (pollLogs r' (state_of (pollLogs r st))))
       = (sent st ++ [logsRequest st]) ++ [logsRequest st].
Proof.
  intros H. unfold logTick. rewrite (pollLogs_failed r st H).
  repeat split.
  - simpl state_of. simpl logs. rewrite Nat.ltb_irrefl.
    destruct (logPollerArmed st); reflexivity.
  - intros r'. rewrite pollLogs_sent. reflexivity.
Qed.

Lemma pollLogs_failure_is_swallowed_witness :
  failed (@Api.Rejected Api.LogsData) = true
  /\ lastIndex (state_of (pollLogs Api.Rejected fetched)) = 1%Z
  /\ logsRequest (state_of (pollLogs Api.Rejected fetched))
     = Api.GetLogs (Some "t1") 1.
Proof.
  pose proof (pollLogs_failure_is_swallowed at_noon Api.Rejected fetched
                eq_refl) as (_ & Hi & _ & _ & _ & _ & _ & Hr & _).
  split; [reflexivity|]. split.
  - rewrite Hi. reflexivity.
  - rewrite Hr. reflexivity.
Defined.

(* ================================================================= *)
(** ** Step markers *)

Lemma step_marker_shape (text : string) :
  isStepLog text = true -> exists rest, text = String "E"%char rest.
Proof.
  unfold isStepLog, JS.startsWith.
  destruct text as [|c rest]; cbn [String.prefix]; intros H.
  - discriminate H.
  - destruct (ascii_dec "E" c) as [<-|]; [eauto|discriminate H].
Qed.

Lemma step_marker_class (text : string) :
  isStepLog text = true ->
  shouldShowLog text = true
  /\ isHumanQuestion text = false
  /\ isUserResponse text = false
  /\ JS.truthy_string text = true.
Proof.
  intros H. destruct (step_marker_shape text H) as [rest ->].
  repeat split.
Qed.

Lemma processLog_step now late (log : LogEntry) (locals : Locals)
  (st : UI) :
  isStepLog (message log) = true ->
  processLog now late log (locals, st)
  = (mkLocals (Some (message log)) [],
     let st1 :=
       if JS.truthy (currentStep locals)
          && negb (Nat.eqb (List.length (currentStepMessages locals)) 0)
       then fold_left (fun s msg => appendMessage now (plainBot msg) s)
                      (currentStepMessages locals) st
       else st in
     appendMessage now
       (stepMessage (message log) (readStep late locals st1)) st1).
Proof.
  intros H. destruct (step_marker_class _ H) as (H1 & H2 & H3 & _).
  unfold processLog. rewrite H1, H2, H3, H. reflexivity.
Qed.

Lemma flush_chatOnly now (bucket : list string) :
  forall st,
    exists k,
      chatOnly st (fold_left (fun s msg => appendMessage now (plainBot msg) s)
                             bucket st) k
      /\ filter isStepMessage k = [].
Proof.
  induction bucket as [|msg bucket IH]; intros st; simpl.
  - exists []. split; [apply chatOnly_refl|reflexivity].
  - destruct (IH (appendMessage now (plainBot msg) st)) as (k & Hk & Hf).
    eexists. split.
    + eapply chatOnly_trans; [apply chatOnly_appendMessage|exact Hk].
    + simpl. exact Hf.
Qed.

(** Entries after a step marker and before the next one: the plain
    ones, and only they, are pushed on the bucket of the open step. *)
Lemma forEachLog_fills_bucket now late (rest : list LogEntry) :
  forall (step : option string) (bucket : list string) (st : UI),
    JS.truthy step = true ->
    forallb (fun e => negb (isStepLog (message e))) rest = true ->
    fst (forEachLog now late rest (mkLocals step bucket, st))
    = mkLocals step
        (bucket ++ map message (filter (fun e => bucketed (message e)) rest)).
Proof.
  induction rest as [|log rest IH]; intros step bucket st Hstep Hrest.
  - simpl. rewrite app_nil_r. reflexivity.
  - rewrite forEachLog_cons. simpl in Hrest.
    apply andb_true_iff in Hrest as [Hlog Hrest].
    apply negb_true_iff in Hlog.
    unfold processLog, bucketed. simpl filter. rewrite Hlog.
    destruct (shouldShowLog (message log)); simpl negb; cbv iota;
      [|simpl; apply IH; assumption].
    destruct (isHumanQuestion (message log)); [simpl; apply IH; assumption|].
    destruct (isUserResponse (message log)); [simpl; apply IH; assumption|].
    simpl currentStep. rewrite Hstep. simpl.
    rewrite IH by assumption. rewrite <- app_assoc. reflexivity.
Qed.

(** The header a step marker appends, after the bucket it may have
    listed: the only message of the entry that carries
    [isStepMessage]. *)
Lemma processLog_step_header now late (log : LogEntry) (locals : Locals)
  (st : UI) :
  isStepLog (message log) = true ->
  exists k t,
    chatOnly st (snd (processLog now late log (locals, st))) k
    /\ filter isStepMessage k
       = [stepMessage (message log)
            (if scheduled st
                || (JS.truthy (currentStep locals)
                    && negb (Nat.eqb
                               (List.length (currentStepMessages locals)) 0))
             then late else currentStep locals) t].
Proof.
  intros Hlog. rewrite (processLog_step now late log locals st Hlog).
  cbv zeta. simpl snd. unfold readStep.
  destruct (JS.truthy (currentStep locals)
            && negb (Nat.eqb (List.length (currentStepMessages locals)) 0))
    eqn:Hflush.
  - destruct (flush_chatOnly now (currentStepMessages locals) st)
      as (k & Hk & Hf).
    rewrite scheduled_flush.
    apply andb_true_iff in Hflush as [_ Hbucket]. rewrite Hbucket.
    rewrite !orb_true_r.
    eexists _, _. split.
    + eapply chatOnly_trans; [exact Hk|apply chatOnly_appendMessage].
    + rewrite filter_app, Hf. reflexivity.
  - rewrite orb_false_r.
    eexists _, _. split; [apply chatOnly_appendMessage|reflexivity].
Qed.

(** One entry adds one header when it is a step marker and none
    otherwise. *)
Lemma processLog_headers now late (log : LogEntry) (locals : Locals)
  (st : UI) :
  exists k,
    chatOnly st (snd (processLog now late log (locals, st))) k
    /\ List.length (filter isStepMessage k)
       = if isStepLog (message log) then 1 else 0.
Proof.
  destruct (isStepLog (message log)) eqn:Hlog.
  - destruct (processLog_step_header now late log locals st Hlog)
      as (k & t & Hk & Hf).
    exists k. split; [exact Hk|]. rewrite Hf. reflexivity.
  - unfold processLog. rewrite Hlog.
    destruct (shouldShowLog (message log)); simpl negb; cbv iota;
      [|exists []; split; [apply chatOnly_refl|reflexivity]].
    destruct (isHumanQuestion (message log)).
    { eexists. split.
      - eapply chatOnly_trans;
          [apply chatOnly_setCurrentHumanQuestion
          |apply chatOnly_appendMessage].
      - reflexivity. }
    destruct (isUserResponse (message log)).
    { eexists. split; [apply chatOnly_appendMessage|reflexivity]. }
    destruct (JS.truthy (currentStep locals));
      (eexists; split; [apply chatOnly_appendMessage|reflexivity]).
Qed.

Lemma forEachLog_headers now late (entries : list LogEntry) :
  forall (locals : Locals) (st : UI),
    exists k,
      chatOnly st (snd (forEachLog now late entries (locals, st))) k
      /\ List.length (filter isStepMessage k)
         = List.length (filter (fun e => isStepLog (message e)) entries).
Proof.
  induction entries as [|log entries IH]; intros locals st.
  - exists []. split; [apply chatOnly_refl|reflexivity].
  - rewrite forEachLog_cons.
    destruct (processLog_headers now late log locals st) as (k1 & H1 & C1).
    destruct (processLog now late log (locals, st)) as [locals1 st1].
    simpl snd in H1.
    destruct (IH locals1 st1) as (k2 & H2 & C2).
    exists (k1 ++ k2). split.
    + eapply chatOnly_trans; eassumption.
    + rewrite filter_app, length_app, C1, C2. simpl filter.
      destruct (isStepLog (message log)); reflexivity.
Qed.

(** C3.  An entry that begins with [Executing step], met by the loop
    in any state of its locals and of the page: among the messages it
    appends exactly one carries [isStepMessage], and that one shows the
    entry's text; its [step] key is what the updater finds in
    [currentStep] when React runs it, the value at the call if nothing
    was scheduled and no bucket was listed first, and else the value at
    the end of the loop.  The bucket is empty afterwards, so the entry
    is in no bucket, and the step it opens is the entry's text; and the
    entries that follow, up to the next step marker, fill that fresh
    bucket from empty with the plain entries among them, in order.
    Over a whole run of the effect, on any page, the messages appended
    that carry [isStepMessage] are as many as the step markers in the
    log sequence. *)
Theorem step_marker_opens_a_step now (late : option string)
  (log : LogEntry) (locals : Locals) (st : UI) (rest : list LogEntry) :
  isStepLog (message log) = true ->
  forallb (fun e => negb (isStepLog (message e))) rest = true ->
  (exists k,
     chatOnly st (snd (processLog now late log (locals, st))) k
     /\ exists t,
          filter isStepMessage k
          = [stepMessage (message log)
               (if scheduled st
                   || (JS.truthy (currentStep locals)
                       && negb (Nat.eqb
                                  (List.length (currentStepMessages locals))
                                  0))
                then late else currentStep locals) t])
  /\ fst (processLog now late log (locals, st))
     = mkLocals (Some (message log)) []
  /\ fst (forEachLog now late (log :: rest) (locals, st))
     = mkLocals (Some (message log))
         (map message (filter (fun e => bucketed (message e)) rest))
  /\ (forall page,
        exists k,
          chatOnly page (processLogs now page) k
          /\ List.length (filter isStepMessage k)
             = List.length
                 (filter (fun e => isStepLog (message e)) (logs page))).
Proof.
  intros Hlog Hrest.
  destruct (step_marker_class _ Hlog) as (_ & _ & _ & Htruthy).
  split; [|split; [|split]].
  - destruct (processLog_step_header now late log locals st Hlog)
      as (k & t & Hk & Hf).
    exists k. split; [exact Hk|]. exists t. exact Hf.
  - rewrite (processLog_step now late log locals st Hlog). reflexivity.
  - rewrite forEachLog_cons, (processLog_step now late log locals st Hlog).
    apply (forEachLog_fills_bucket now late rest (Some (message log)) [] _
             Htruthy Hrest).
  - intros page. unfold processLogs.
    destruct (logs page) as [|e entries] eqn:Hlogs.
    + exists []. split; [apply chatOnly_refl|reflexivity].
    + destruct (forEachLog_headers now
                  (stepAfterLoop now (e :: entries) (rendered page))
                  (e :: entries) noStep (rendered page)) as (k & Hk & Hc).
      exists k. split; [apply chatOnly_rendered; exact Hk|exact Hc].
Qed.

Lemma step_marker_opens_a_step_witness :
  isStepLog (message (info "Executing step 2")) = true
  /\ forallb (fun e => negb (isStepLog (message e)))
             [info "calling tool"; info "Token usage: 12";
              info "[ASK_HUMAN] which colour?"; info "tool done"] = true
  /\ fst (forEachLog at_noon (Some "Executing step 2")
            (info "Executing step 2"
             :: [info "calling tool"; info "Token usage: 12";
                 info "[ASK_HUMAN] which colour?"; info "tool done"])
            (mkLocals (Some "Executing step 1") ["searching"], fetched))
     = mkLocals (Some "Executing step 2") ["calling tool"; "tool done"].
Proof.
  split; [reflexivity|]. split; [reflexivity|].
  pose proof (step_marker_opens_a_step at_noon (Some "Executing step 2")
                (info "Executing step 2")
                (mkLocals (Some "Executing step 1") ["searching"]) fetched
                [info "calling tool"; info "Token usage: 12";
                 info "[ASK_HUMAN] which colour?"; info "tool done"]
                eq_refl eq_refl) as (_ & _ & Hbucket & _).
  exact Hbucket.
Defined.

(* ================================================================= *)
(** ** The Status Poller *)

Lemma statusTick_disarmed now (r : Api.Fetched Api.StatusData) (st : UI) :
  currentTaskId st = None -> statusTick now r st = st.
Proof.
  intros H. unfold statusTick, statusPollerArmed. rewrite H. reflexivity.
Qed.

(** Each asynchronous function is its call followed at once by its
    answer, when nothing comes in between. *)
Lemma pollStatus_call_answer now (r : Api.Fetched Api.StatusData)
  (st : UI) :
  pollStatus now r st
  = statusAnswer now (isLoading st) r (fetch (statusRequest st) st).
Proof. destruct r; reflexivity. Qed.

Lemma pollLogs_call_answer (r : Api.Fetched Api.LogsData) (st : UI) :
  pollLogs r st = logsAnswer r (fetch (logsRequest st) st).
Proof. destruct r; reflexivity. Qed.

Lemma respond_call_answer now (r : Api.Fetched Api.SendData) (st : UI) :
  respond now r st = respondAnswer now r (respondCall st).
Proof. destruct r; reflexivity. Qed.

Lemma startConversation_call_answer now (r : Api.Fetched Api.SendData)
  (st : UI) :
  startConversation now r st = sendAnswer now r (sendCall now st).
Proof. destruct r; reflexivity. Qed.

Lemma statusAnswer_completed now (loading : bool)
  (response : option string) (st : UI) :
  statusAnswer now loading
    (Api.Json (Api.mkStatusData "completed" response)) st
  = Normal tt
      (setCurrentTaskId None
         (match response with
          | Some text =>
            if JS.truthy_string text
            then appendMessage now (plainBot text)
                   (handleStopLoading (setIsAwaitingHuman false st))
            else handleStopLoading (setIsAwaitingHuman false st)
          | None => handleStopLoading (setIsAwaitingHuman false st)
          end)).
Proof. destruct response as [[|c text]|]; reflexivity. Qed.

(** C4 (amended).  A [completed] answer, on whatever page it arrives:
    the handler completes, issues no request, turns the busy and
    awaiting flags off and clears the task id, so that the status
    interval is gone and no tick after it issues a status fetch; it
    appends the response as one plain bot message when the answer has
    a response that is not the empty text, and appends nothing when
    the response is missing or empty.  The interval callback is its
    fetch followed by this handling, and the handling does not ask
    whether the interval is still installed: when two ticks have
    issued their fetch before the first answer arrives and both are
    answered [completed], the response is appended twice. *)
Theorem completed_stops_polling_and_appends_response now (st : UI)
  (loading : bool) (response : option string) :
  let completed := Api.Json (Api.mkStatusData "completed" response) in
  let outcome := statusAnswer now loading completed st in
  pollStatus now completed st
  = statusAnswer now (isLoading st) completed (fetch (statusRequest st) st)
  /\ completes outcome = true
  /\ messages (state_of outcome)
     = messages st
       ++ match response with
          | Some text =>
            if JS.truthy_string text
            then [plainBot text (now (clock st))]
            else []
          | None => []
          end
  /\ sent (state_of outcome) = sent st
  /\ currentTaskId (state_of outcome) = None
  /\ statusPollInterval (state_of outcome) = None
  /\ (forall r, statusTick now r (state_of outcome) = state_of outcome)
  /\ isLoading (state_of outcome) = false
  /\ isAwaitingHuman (state_of outcome) = false
  /\ messages (twoInFlight now completed completed st)
     = messages st
       ++ (if statusPollerArmed st then
             match response with
             | Some text =>
               if JS.truthy_string text
               then [plainBot text (now (clock st));
                     plainBot text (now (S (clock st)))]
               else []
             | None => []
             end
           else []).
Proof.
  cbv zeta.
  split; [apply pollStatus_call_answer|].
  assert (Hid : currentTaskId
                  (state_of (statusAnswer now loading
                     (Api.Json (Api.mkStatusData "completed" response)) st))
                = None).
  { rewrite statusAnswer_completed. reflexivity. }
  split; [rewrite statusAnswer_completed; reflexivity|].
  split.
  { rewrite statusAnswer_completed.
    destruct response as [text|]; [|simpl; rewrite app_nil_r; reflexivity].
    simpl. destruct (JS.truthy_string text); simpl;
      rewrite ?app_nil_r; reflexivity. }
  split.
  { rewrite statusAnswer_completed.
    destruct response as [text|]; [|reflexivity].
    destruct (JS.truthy_string text); reflexivity. }
  split; [exact Hid|].
  split.
  { unfold statusPollInterval, statusPollerArmed. rewrite Hid.
    reflexivity. }
  split; [intros r; apply statusTick_disarmed; exact Hid|].
  split.
  { rewrite statusAnswer_completed.
    destruct response as [text|]; [|reflexivity].
    destruct (JS.truthy_string text); reflexivity. }
  split.
  { rewrite statusAnswer_completed.
    destruct response as [text|]; [|reflexivity].
    destruct (JS.truthy_string text); reflexivity. }
  unfold twoInFlight.
  destruct (statusPollerArmed st); [|rewrite app_nil_r; reflexivity].
  cbv zeta. rewrite !statusAnswer_completed.
  destruct response as [text|]; [|simpl; rewrite app_nil_r; reflexivity].
  destruct (JS.truthy_string text); simpl.
  - rewrite <- app_assoc. reflexivity.
  - rewrite app_nil_r. reflexivity.
Qed.

(** The scenario of the specification: [{status: "completed",
    response: "done"}] adds one bot message reading [done]. *)
Example completed_done :
  messages (statusTick at_noon
              (Api.Json (Api.mkStatusData "completed" (Some "done")))
              running)
  = messages running ++ [plainBot "done" "2025-01-01T12:00:00.000Z"]
  /\ statusPollerArmed
       (statusTick at_noon
          (Api.Json (Api.mkStatusData "completed" (Some "done")))
          running) = false.
Proof. split; reflexivity. Qed.

(** C4 (as stated) fails twice.  The answer [{status: "completed",
    response: ""}] has a response field, and no message is appended.
    And with a task running, two ticks whose fetches are both in
    flight and both answered [{status: "completed", response:
    "done"}]: the first answer clears the task id and with it the
    interval, and the second answer still adds a message, so that the
    chat ends with [done] twice. *)
Lemma completed_appends_nothing_or_twice :
  (Api.response (Api.mkStatusData "completed" (Some "")) = Some ""
   /\ messages (state_of (pollStatus at_noon
                  (Api.Json (Api.mkStatusData "completed" (Some "")))
                  running))
      = messages running)
  /\ (statusPollerArmed running = true
      /\ sent (twoInFlight at_noon
                 (Api.Json (Api.mkStatusData "completed" (Some "done")))
                 (Api.Json (Api.mkStatusData "completed" (Some "done")))
                 running)
         = sent running
           ++ [Api.GetStatus (Some "t1"); Api.GetStatus (Some "t1")]
      /\ statusPollInterval
           (state_of (statusAnswer at_noon true
                        (Api.Json (Api.mkStatusData "completed"
                                                    (Some "done")))
                        (fetch (statusRequest running)
                               (fetch (statusRequest running) running))))
         = None
      /\ messages (twoInFlight at_noon
                     (Api.Json (Api.mkStatusData "completed" (Some "done")))
                     (Api.Json (Api.mkStatusData "completed" (Some "done")))
                     running)
         = messages running
           ++ [plainBot "done" "2025-01-01T12:00:00.000Z";
               plainBot "done" "2025-01-01T12:00:00.000Z"]).
Proof.
  split; [split; reflexivity|].
  split; [reflexivity|]. split; [reflexivity|]. split; reflexivity.
Qed.



(** C8.  On [error] the handler completes, turns the busy and awaiting
    flags off and clears the task id, so that the status interval is
    gone and later ticks leave the page alone; the message list is the
    one it found and the clock has not been read. *)
Theorem error_stops_polling_and_appends_nothing now (st : UI)
  (response : option string) :
  let outcome :=
    pollStatus now (Api.Json (Api.mkStatusData "error" response)) st in
  completes outcome = true
  /\ messages (state_of outcome) = messages st
  /\ clock (state_of outcome) = clock st
  /\ currentTaskId (state_of outcome) = None
  /\ statusPollInterval (state_of outcome) = None
  /\ (forall r, statusTick now r (state_of outcome) = state_of outcome)
  /\ isLoading (state_of outcome) = false
  /\ isAwaitingHuman (state_of outcome) = false.
Proof.
  cbv zeta. split; [reflexivity|]. do 4 (split; [reflexivity|]).
  split; [|split; reflexivity].
  intros r. apply statusTick_disarmed. reflexivity.
Qed.

(* ================================================================= *)
(** ** Send and respond *)

Lemma response_marker_class (text : string) :
  isUserResponse text = true ->
  shouldShowLog text = true /\ isHumanQuestion text = false.
Proof.
  unfold isUserResponse, JS.startsWith.
  destruct text as [|c1 [|c2 rest]]; cbn [String.prefix]; intros H.
  - discriminate H.
  - destruct (ascii_dec "[" c1); discriminate H.
  - destruct (ascii_dec "[" c1) as [<-|]; [|discriminate H].
    destruct (ascii_dec "U" c2) as [<-|]; [|discriminate H].
    split; reflexivity.
Qed.

(** C9.  A submit while the page awaits an answer and a task is
    active, whose POST is not rejected: the handler completes, the one
    request it sends is the POST to [/human_response] with the task id
    and the text of the input field, and the message list is left as
    it was.  And the fold, on an entry beginning with
    [[USER_RESPONSE]], appends exactly one message, from the user and
    flagged [isResponse], showing the entry with the marker removed. *)
Theorem respond_is_echoed_by_the_log_only now
  (r : Api.Fetched Api.SendData) (st : UI)
  (log : LogEntry) (locals : Locals) (page : UI) (late : option string) :
  sendRefused st = false ->
  answering st = true ->
  rejected r = false ->
  isUserResponse (message log) = true ->
  (completes (handleSendMessage now r st) = true
   /\ sent (state_of (handleSendMessage now r st))
      = sent st ++ [Api.PostHumanResponse (currentTaskId st) (inputValue st)]
   /\ messages (state_of (handleSendMessage now r st)) = messages st)
  /\ (exists m,
        messages (snd (processLog now late log (locals, page)))
        = messages page ++ [m]
        /\ content m = JS.remove_first "[USER_RESPONSE] " (message log)
        /\ sender m = user
        /\ isResponse m = true)
  /\ fst (processLog now late log (locals, page)) = locals.
Proof.
  intros Hrefused Hanswering Hr Hlog.
  destruct (response_marker_class _ Hlog) as [Hshow Hquestion].
  split; [|split].
  - unfold handleSendMessage. rewrite Hrefused, Hanswering.
    destruct r; [discriminate Hr| |]; repeat split.
  - unfold processLog. rewrite Hshow, Hquestion, Hlog. simpl.
    eexists. repeat split.
  - unfold processLog. rewrite Hshow, Hquestion, Hlog. reflexivity.
Qed.

Lemma respond_is_echoed_by_the_log_only_witness :
  sendRefused asked = false
  /\ answering asked = true
  /\ rejected (Api.Json (Api.mkSendData None)) = false
  /\ isUserResponse (message (info "[USER_RESPONSE] blue")) = true
  /\ sent (state_of (handleSendMessage at_noon
                       (Api.Json (Api.mkSendData None)) asked))
     = sent asked ++ [Api.PostHumanResponse (Some "t1") "blue"]
  /\ messages (state_of (handleSendMessage at_noon
                           (Api.Json (Api.mkSendData None)) asked))
     = messages asked.
Proof.
  do 4 (split; [reflexivity|]).
  pose proof (respond_is_echoed_by_the_log_only at_noon
                (Api.Json (Api.mkSendData None)) asked
                (info "[USER_RESPONSE] blue") noStep asked None
                eq_refl eq_refl eq_refl eq_refl) as ((_ & Hs & Hm) & _).
  split; [exact Hs|exact Hm].
Defined.

(* ================================================================= *)
(** ** The message list under every operation *)

Lemma extends_refl {A : Type} (l : list A) : extends l l.
Proof. exists []. rewrite app_nil_r. reflexivity. Qed.

Lemma extends_app {A : Type} (l k : list A) : extends l (l ++ k).
Proof. exists k. reflexivity. Qed.

Lemma extends_length {A : Type} (l l' : list A) :
  extends l l' -> List.length l <= List.length l'.
Proof. intros [k ->]. rewrite length_app. lia. Qed.

Lemma processLogs_extends now (st : UI) :
  extends (messages st) (messages (processLogs now st)).
Proof.
  destruct (processLogs_chatOnly now st) as (k & (H & _) & _).
  exists k. exact H.
Qed.

Lemma logTick_extends now (r : Api.Fetched Api.LogsData) (st : UI) :
  extends (messages st) (messages (logTick now r st)).
Proof.
  unfold logTick. destruct (logPollerArmed st); [|apply extends_refl].
  cbv zeta. destruct (_ <? _)%nat.
  - rewrite <- (pollLogs_messages r st) at 1. apply processLogs_extends.
  - rewrite pollLogs_messages. apply extends_refl.
Qed.

Lemma pollStatus_extends now (r : Api.Fetched Api.StatusData) (st : UI) :
  extends (messages st) (messages (state_of (pollStatus now r st))).
Proof.
  destruct r as [| |[status response]]; try apply extends_refl.
  unfold pollStatus, try_catch, bind, update, await_json, ret.
  cbn [Api.status Api.response].
  destruct (status =? "awaiting_human")%string.
  { destruct (isLoading st); apply extends_refl. }
  destruct (status =? "completed")%string.
  { destruct response as [[|c text]|]; try apply extends_refl.
    simpl. apply extends_app. }
  destruct (status =? "error")%string; apply extends_refl.
Qed.

Lemma respond_extends now (r : Api.Fetched Api.SendData) (st : UI) :
  extends (messages st) (messages (state_of (respond now r st))).
Proof.
  destruct r; try apply extends_refl.
  simpl. apply extends_app.
Qed.

Lemma startConversation_json now (d : Api.SendData) (st : UI) :
  messages (state_of (startConversation now (Api.Json d) st))
  = messages st
    ++ [userMessage (inputValue st) (now (clock st));
        thinking (now (S (clock st)))].
Proof. reflexivity. Qed.

Lemma startConversation_failed now (r : Api.Fetched Api.SendData)
  (st : UI) :
  failed r = true ->
  messages (state_of (startConversation now r st))
  = filter notBot (messages st)
    ++ [userMessage (inputValue st) (now (clock st));
        plainBot sendFailed (now (S (S (clock st))))].
Proof.
  intros H.
  assert (E : messages (state_of (startConversation now r st))
              = filter notBot
                  (messages st
                   ++ [userMessage (inputValue st) (now (clock st));
                       thinking (now (S (clock st)))])
                ++ [plainBot sendFailed (now (S (S (clock st))))]).
  { destruct r; try discriminate H; reflexivity. }
  rewrite E, filter_app, <- app_assoc. reflexivity.
Qed.

(** C6 (amended).  Every operation on the page keeps the messages it
    finds, in place and in order, at the head of the list it leaves
    (so the list never gets shorter), new conversations included:
    nothing resets the list when a task starts.  The one exception is
    a submit that starts a conversation and whose POST fails: it drops
    every bot message, keeps the user messages in order, and ends the
    list with the user's text and one error message. *)
Theorem messages_append_only_except_failed_send now (op : Operation)
  (st : UI) :
  if sendFails op st
  then messages (perform now op st)
       = filter notBot (messages st)
         ++ [userMessage (inputValue st) (now (clock st));
             plainBot sendFailed (now (S (S (clock st))))]
  else extends (messages st) (messages (perform now op st))
       /\ List.length (messages st)
          <= List.length (messages (perform now op st)).
Proof.
  assert (Hgoal :
    if sendFails op st
    then messages (perform now op st)
         = filter notBot (messages st)
           ++ [userMessage (inputValue st) (now (clock st));
               plainBot sendFailed (now (S (S (clock st))))]
    else extends (messages st) (messages (perform now op st))).
  { destruct op as [r| |r|text|r]; simpl sendFails; simpl perform.
    - apply logTick_extends.
    - apply processLogs_extends.
    - unfold statusTick. destruct (statusPollerArmed st);
        [apply pollStatus_extends|apply extends_refl].
    - apply extends_refl.
    - unfold handleSendMessage.
      destruct (sendRefused st); [apply extends_refl|].
      destruct (answering st); [apply respond_extends|].
      destruct (failed r) eqn:Hr; simpl.
      + apply startConversation_failed. exact Hr.
      + destruct r as [| |d]; try discriminate Hr.
        rewrite startConversation_json. apply extends_app. }
  destruct (sendFails op st); [exact Hgoal|].
  split; [exact Hgoal|apply extends_length; exact Hgoal].
Qed.

(** C6 (as stated) fails: when the POST of [hello] is rejected, the
    greeting the page showed is gone. *)
Lemma failed_send_deletes_bot_messages :
  messages typed = [greeting "2025-01-01"]
  /\ messages (perform at_noon (Submit Api.Rejected) typed)
     = [userMessage "hello" "2025-01-01T12:00:00.000Z";
        plainBot sendFailed "2025-01-01T12:00:00.000Z"]
  /\ ~ extends (messages typed)
               (messages (perform at_noon (Submit Api.Rejected) typed)).
Proof.
  split; [reflexivity|]. split; [reflexivity|].
  intros [k H]. vm_compute in H. discriminate H.
Qed.

(* ================================================================= *)
(** ** How the pollers and the input work together *)

Lemma pollStatus_uneventful now (r : Api.Fetched Api.StatusData) (st : UI) :
  uneventful r = true ->
  pollStatus now r st
  = Normal tt
      (if failed r
       then console_log (Warn "Error polling status:")
              (fetch (statusRequest st) st)
       else fetch (statusRequest st) st).
Proof.
  intros H.
  destruct r as [| |[status response]]; try reflexivity.
  unfold uneventful, handled in H. cbn [Api.status] in H.
  apply negb_true_iff in H.
  apply orb_false_iff in H as [H H3].
  apply orb_false_iff in H as [H1 H2].
  unfold pollStatus, try_catch, bind, update, await_json, ret.
  cbn [Api.status Api.response]. rewrite H1, H2, H3. reflexivity.
Qed.

(** X1.  A status poll that fails, or that reports a status other
    than [awaiting_human], [completed] and [error], completes and
    leaves the page as it found it, but for the request it recorded
    and, on failure, one warning on the console; the status interval
    stays installed. *)
Theorem uneventful_status_poll_changes_nothing now
  (r : Api.Fetched Api.StatusData) (st : UI) :
  uneventful r = true ->
  pollStatus now r st
  = Normal tt
      (if failed r
       then console_log (Warn "Error polling status:")
              (fetch (statusRequest st) st)
       else fetch (statusRequest st) st)
  /\ statusPollInterval (state_of (pollStatus now r st))
     = statusPollInterval st
  /\ outsideChat (state_of (pollStatus now r st))
     = (currentTaskId st, isLoading st, lastIndex st, logs st,
        inputValue st, isAwaitingHuman st,
        console st ++ (if failed r then [Warn "Error polling status:"]
                       else []),
        sent st ++ [statusRequest st])
  /\ messages (state_of (pollStatus now r st)) = messages st.
Proof.
  intros H. rewrite (pollStatus_uneventful now r st H).
  split; [reflexivity|].
  destruct (failed r); simpl; rewrite ?app_nil_r; repeat split.
Qed.

Lemma uneventful_status_poll_changes_nothing_witness :
  uneventful (Api.Json (Api.mkStatusData "running" None)) = true
  /\ messages (state_of (pollStatus at_noon
                 (Api.Json (Api.mkStatusData "running" None)) running))
     = messages running.
Proof.
  split; [reflexivity|].
  apply (uneventful_status_poll_changes_nothing at_noon
           (Api.Json (Api.mkStatusData "running" None)) running eq_refl).
Defined.

Lemma logTick_disarmed now (r : Api.Fetched Api.LogsData) (st : UI) :
  logPollerArmed st = false -> logTick now r st = st.
Proof. intros H. unfold logTick. rewrite H. reflexivity. Qed.



Lemma processLogs_outsideChat now (st : UI) :
  outsideChat (processLogs now st) = outsideChat st.
Proof.
  destruct (processLogs_chatOnly now st) as (k & (_ & _ & H) & _). exact H.
Qed.

Lemma stuck_perform now (op : Operation) (st : UI) :
  stuck st = true ->
  stuck (perform now op st) = true
  /\ sent (perform now op st) = sent st.
Proof.
  intros H. pose proof H as H'. unfold stuck in H'.
  apply andb_true_iff in H' as [H' Hawait].
  apply andb_true_iff in H' as [Htask Hload].
  apply negb_true_iff in Htask. apply negb_true_iff in Hawait.
  destruct op as [r| |r|text|r]; simpl perform.
  - rewrite logTick_disarmed; [auto|].
    unfold logPollerArmed. rewrite Htask. reflexivity.
  - pose proof (processLogs_outsideChat now st) as E.
    unfold outsideChat in E. injection E as E1 E2 _ _ _ E6 _ E8.
    unfold stuck. rewrite E1, E2, E6, E8. auto.
  - unfold statusTick, statusPollerArmed. rewrite Htask. auto.
  - auto.
  - unfold handleSendMessage, sendRefused.
    rewrite Hload, Hawait, orb_true_r. auto.
Qed.

Lemma stuck_performAll now (ops : list Operation) :
  forall st,
    stuck st = true ->
    stuck (performAll now ops st) = true
    /\ sent (performAll now ops st) = sent st.
Proof.
  induction ops as [|op ops IH]; intros st H; [auto|].
  destruct (stuck_perform now op st H) as [H1 H2].
  destruct (IH (perform now op st) H1) as [H3 H4].
  unfold performAll in *. simpl. rewrite H4, H2. auto.
Qed.

(** X3.  When the answer to [/send] carries no task id (or an empty
    one), the page is left busy without a task: no interval is
    installed, and whatever happens next (ticks, typing, submits,
    renders), the input stays disabled and no request is ever sent
    again. *)
Theorem send_without_task_id_locks_the_input now (data : Api.SendData)
  (st : UI) (ops : list Operation) :
  sendRefused st = false ->
  isAwaitingHuman st = false ->
  JS.truthy (Api.task_id data) = false ->
  logPollInterval (state_of (handleSendMessage now (Api.Json data) st))
  = None
  /\ statusPollInterval (state_of (handleSendMessage now (Api.Json data) st))
     = None
  /\ inputDisabled
       (performAll now ops
          (state_of (handleSendMessage now (Api.Json data) st))) = true
  /\ sent (performAll now ops
             (state_of (handleSendMessage now (Api.Json data) st)))
     = sent st ++ [Api.PostSend (inputValue st)].
Proof.
  intros Hrefused Hawait Htask.
  assert (E : state_of (handleSendMessage now (Api.Json data) st)
              = state_of (startConversation now (Api.Json data) st)).
  { unfold handleSendMessage, answering.
    rewrite Hrefused, Hawait. reflexivity. }
  rewrite E.
  assert (S : stuck (state_of (startConversation now (Api.Json data) st))
              = true).
  { unfold stuck. simpl. rewrite Htask, Hawait. reflexivity. }
  destruct (stuck_performAll now ops _ S) as [S' Hsent].
  split; [|split; [|split]].
  - unfold logPollInterval, logPollerArmed. simpl. rewrite Htask. reflexivity.
  - unfold statusPollInterval, statusPollerArmed. simpl. rewrite Htask.
    reflexivity.
  - unfold stuck in S'. apply andb_true_iff in S' as [S' S3].
    apply andb_true_iff in S' as [_ S2].
    unfold inputDisabled. rewrite S2, S3. reflexivity.
  - rewrite Hsent. reflexivity.
Qed.

Lemma send_without_task_id_locks_the_input_witness :
  sendRefused typed = false
  /\ isAwaitingHuman typed = false
  /\ JS.truthy (Api.task_id (Api.mkSendData None)) = false
  /\ inputDisabled
       (performAll at_noon
          [StatusTick (Api.Json (Api.mkStatusData "completed" None));
           Typing "again"; Submit (Api.Json (Api.mkSendData (Some "t2")))]
          (state_of (handleSendMessage at_noon
                       (Api.Json (Api.mkSendData None)) typed))) = true.
Proof.
  do 3 (split; [reflexivity|]).
  apply (send_without_task_id_locks_the_input at_noon (Api.mkSendData None)
           typed
           [StatusTick (Api.Json (Api.mkStatusData "completed" None));
            Typing "again"; Submit (Api.Json (Api.mkSendData (Some "t2")))]
           eq_refl eq_refl eq_refl).
Defined.

Lemma logTick_with_entries now (data : Api.LogsData) (st : UI)
  (entry : LogEntry) (more : list LogEntry) :
  logPollerArmed st = true ->
  entriesOf data = entry :: more ->
  logTick now (Api.Json data) st
  = processLogs now
      (setLastIndex (Api.next_index data)
         (setLogs (fun prevLogs => prevLogs ++ entry :: more)
            (fetch (logsRequest st) st))).
Proof.
  intros Harmed Hdata. unfold logTick.
  rewrite Harmed, pollLogs_json, Hdata. cbv zeta. simpl state_of.
  assert (L : (List.length (logs st)
               <? List.length
                    (logs (setLastIndex (Api.next_index data)
                             (setLogs (fun prevLogs =>
                                         prevLogs ++ entry :: more)
                                (fetch (logsRequest st) st)))))%nat
              = true).
  { apply Nat.ltb_lt. simpl. rewrite length_app. simpl. lia. }
  rewrite L. reflexivity.
Qed.

(** X4.  A poll of an installed log interval that brings entries is
    followed by a run of the log-processing effect over the whole
    list: the cursor and the log list move on, and the messages added
    are, timestamps aside, the reconstruction of all the entries
    accumulated so far, the old ones included. *)
Theorem logTick_renders_the_whole_log_again now (data : Api.LogsData)
  (st : UI) (entry : LogEntry) (more : list LogEntry) :
  logPollerArmed st = true ->
  entriesOf data = entry :: more ->
  lastIndex (logTick now (Api.Json data) st) = Api.next_index data
  /\ logs (logTick now (Api.Json data) st) = logs st ++ entry :: more
  /\ exists k,
       messages (logTick now (Api.Json data) st) = messages st ++ k
       /\ map untimed k = reconstruct (logs st ++ entry :: more).
Proof.
  intros Harmed Hdata.
  rewrite (logTick_with_entries now data st entry more Harmed Hdata).
  set (st1 := setLastIndex (Api.next_index data)
                (setLogs (fun prevLogs => prevLogs ++ entry :: more)
                   (fetch (logsRequest st) st))).
  destruct (processLogs_chatOnly now st1) as (k & (Hm & _ & Ho) & Hk).
  unfold outsideChat in Ho. injection Ho as _ _ E3 E4 _ _ _ _.
  split; [rewrite E3; reflexivity|].
  split; [rewrite E4; reflexivity|].
  exists k. split; [exact Hm|exact Hk].
Qed.

Lemma logTick_renders_the_whole_log_again_witness :
  logPollerArmed fetched = true
  /\ entriesOf (Api.mkLogsData (Some [info "searching"]) 2)
     = [info "searching"]
  /\ exists k,
       messages (logTick at_noon
                   (Api.Json (Api.mkLogsData (Some [info "searching"]) 2))
                   fetched)
       = messages fetched ++ k
       /\ map untimed k
          = reconstruct (logs fetched ++ [info "searching"]).
Proof.
  split; [reflexivity|]. split; [reflexivity|].
  apply (logTick_renders_the_whole_log_again at_noon
           (Api.mkLogsData (Some [info "searching"]) 2) fetched
           (info "searching") [] eq_refl eq_refl).
Defined.

(** X5.  An answer to a question that is posted without rejection
    empties the input, ends the awaiting state, turns the busy flag on
    and resets the log list and the cursor: the log interval is
    installed again and its next request asks for the log from index
    0, so that the first entries it brings are rendered as a whole log
    of their own, after the messages already shown. *)
Theorem respond_restarts_log_polling_from_zero now
  (r : Api.Fetched Api.SendData) (st : UI) (data : Api.LogsData)
  (entry : LogEntry) (more : list LogEntry) :
  sendRefused st = false ->
  answering st = true ->
  rejected r = false ->
  entriesOf data = entry :: more ->
  inputValue (state_of (handleSendMessage now r st)) = ""
  /\ isAwaitingHuman (state_of (handleSendMessage now r st)) = false
  /\ logs (state_of (handleSendMessage now r st)) = []
  /\ logPollInterval (state_of (handleSendMessage now r st))
     = Some 1000%nat
  /\ logsRequest (state_of (handleSendMessage now r st))
     = Api.GetLogs (currentTaskId st) 0
  /\ exists k,
       messages (logTick now (Api.Json data)
                   (state_of (handleSendMessage now r st)))
       = messages st ++ k
       /\ map untimed k = reconstruct (entry :: more).
Proof.
  intros Hrefused Hanswering Hr Hdata.
  pose proof Hanswering as Htask. unfold answering in Htask.
  apply andb_true_iff in Htask as [_ Htask].
  assert (E : state_of (handleSendMessage now r st)
              = handleStartLoading
                  (setIsAwaitingHuman false
                     (setInputValue ""
                        (fetch (Api.PostHumanResponse (currentTaskId st)
                                                      (inputValue st))
                               st)))).
  { unfold handleSendMessage. rewrite Hrefused, Hanswering.
    destruct r; [discriminate Hr| |]; reflexivity. }
  rewrite E.
  assert (A : logPollerArmed
                (handleStartLoading
                   (setIsAwaitingHuman false
                      (setInputValue ""
                         (fetch (Api.PostHumanResponse (currentTaskId st)
                                                       (inputValue st))
                                st)))) = true).
  { unfold logPollerArmed. simpl. rewrite Htask. reflexivity. }
  do 3 (split; [reflexivity|]).
  split; [unfold logPollInterval; rewrite A; reflexivity|].
  split; [reflexivity|].
  rewrite (logTick_with_entries now data _ entry more A Hdata).
  match goal with
  | |- exists k, messages (processLogs now ?page) = _ /\ _ =>
    destruct (processLogs_chatOnly now page) as (k & (Hm & _) & Hk)
  end.
  exists k. split; [exact Hm|exact Hk].
Qed.

Lemma respond_restarts_log_polling_from_zero_witness :
  sendRefused asked = false
  /\ answering asked = true
  /\ rejected (Api.Json (Api.mkSendData None)) = false
  /\ entriesOf firstLogs = [info "Executing step 1"]
  /\ lastIndex asked = 2%Z
  /\ logsRequest (state_of (handleSendMessage at_noon
                              (Api.Json (Api.mkSendData None)) asked))
     = Api.GetLogs (Some "t1") 0.
Proof.
  do 4 (split; [reflexivity|]). split; [reflexivity|].
  apply (respond_restarts_log_polling_from_zero at_noon
           (Api.Json (Api.mkSendData None)) asked firstLogs
           (info "Executing step 1") [] eq_refl eq_refl eq_refl eq_refl).
Defined.

(** X6.  An answer to a question whose POST is rejected is not lost:
    the handler completes, writes one error line to the console and
    one error message to the chat, and leaves the input, the awaiting
    state and the task as they were, so that the next submit takes the
    same branch and posts the same request. *)
Theorem rejected_respond_can_be_resubmitted now
  (r r' : Api.Fetched Api.SendData) (st : UI) :
  sendRefused st = false ->
  answering st = true ->
  rejected r = true ->
  completes (handleSendMessage now r st) = true
  /\ console (state_of (handleSendMessage now r st))
     = console st ++ [Error "Error sending human response:"]
  /\ messages (state_of (handleSendMessage now r st))
     = messages st ++ [plainBot respondFailed (now (clock st))]
  /\ inputValue (state_of (handleSendMessage now r st)) = inputValue st
  /\ isAwaitingHuman (state_of (handleSendMessage now r st)) = true
  /\ currentTaskId (state_of (handleSendMessage now r st))
     = currentTaskId st
  /\ isLoading (state_of (handleSendMessage now r st)) = isLoading st
  /\ sent (state_of (handleSendMessage now r'
                       (state_of (handleSendMessage now r st))))
     = sent st
       ++ [Api.PostHumanResponse (currentTaskId st) (inputValue st);
           Api.PostHumanResponse (currentTaskId st) (inputValue st)].
Proof.
  intros Hrefused Hanswering Hr.
  destruct r; try discriminate Hr.
  pose proof Hanswering as Ha. unfold answering in Ha.
  apply andb_true_iff in Ha as [Hawait Htask].
  assert (E : state_of (handleSendMessage now Api.Rejected st)
              = appendMessage now (plainBot respondFailed)
                  (console_log (Error "Error sending human response:")
                     (fetch (Api.PostHumanResponse (currentTaskId st)
                                                   (inputValue st)) st))).
  { unfold handleSendMessage. rewrite Hrefused, Hanswering. reflexivity. }
  split.
  { unfold handleSendMessage. rewrite Hrefused, Hanswering. reflexivity. }
  rewrite E. split; [reflexivity|]. split; [reflexivity|].
  split; [reflexivity|].
  split; [exact Hawait|]. split; [reflexivity|]. split; [reflexivity|].
  unfold handleSendMessage at 1.
  assert (R : sendRefused
                (appendMessage now (plainBot respondFailed)
                   (console_log (Error "Error sending human response:")
                      (fetch (Api.PostHumanResponse (currentTaskId st)
                                                    (inputValue st)) st)))
              = false) by exact Hrefused.
  assert (A : answering
                (appendMessage now (plainBot respondFailed)
                   (console_log (Error "Error sending human response:")
                      (fetch (Api.PostHumanResponse (currentTaskId st)
                                                    (inputValue st)) st)))
              = true) by exact Hanswering.
  rewrite R, A.
  destruct r'; simpl; rewrite <- app_assoc; reflexivity.
Qed.

Lemma rejected_respond_can_be_resubmitted_witness :
  sendRefused asked = false
  /\ answering asked = true
  /\ rejected (@Api.Rejected Api.SendData) = true
  /\ inputValue (state_of (handleSendMessage at_noon Api.Rejected asked))
     = "blue"
  /\ isAwaitingHuman
       (state_of (handleSendMessage at_noon Api.Rejected asked)) = true.
Proof.
  do 3 (split; [reflexivity|]).
  pose proof (rejected_respond_can_be_resubmitted at_noon Api.Rejected
                Api.Rejected asked eq_refl eq_refl eq_refl)
    as (_ & _ & _ & Hi & Ha & _).
  split; [rewrite Hi; reflexivity|exact Ha].
Defined.

Lemma trimStart_allSpaces (s : string) :
  allSpaces s = true -> JS.trimStart s = "".
Proof.
  induction s as [|c r IH]; intros H; [reflexivity|].
  simpl in H. apply andb_true_iff in H as [Hc Hr].
  cbn [JS.trimStart]. rewrite Hc. apply IH. exact Hr.
Qed.

(** X7.  A submit does nothing at all (no request, no message, no
    change of state) when the input holds only blanks, tabs and line
    breaks, and also when the input field is disabled. *)
Theorem blank_or_disabled_submit_does_nothing now
  (r : Api.Fetched Api.SendData) (st : UI) :
  allSpaces (inputValue st) = true \/ inputDisabled st = true ->
  handleSendMessage now r st = Normal tt st.
Proof.
  intros H. unfold handleSendMessage.
  assert (R : sendRefused st = true).
  { unfold sendRefused. destruct H as [H|H].
    - unfold JS.trim. rewrite (trimStart_allSpaces _ H). reflexivity.
    - unfold inputDisabled in H. rewrite H. apply orb_true_r. }
  rewrite R. reflexivity.
Qed.

Lemma blank_or_disabled_submit_does_nothing_witness :
  (allSpaces (inputValue (setInputValue "   " typed)) = true
   \/ inputDisabled (setInputValue "   " typed) = true)
  /\ handleSendMessage at_noon Api.Rejected (setInputValue "   " typed)
     = Normal tt (setInputValue "   " typed).
Proof.
  split; [left; reflexivity|].
  apply (blank_or_disabled_submit_does_nothing at_noon Api.Rejected
           (setInputValue "   " typed)).
  left. reflexivity.
Defined.

(* ================================================================= *)
(** ** More on the Message Reconstructor *)

Lemma forEachLog_app now late (front back : list LogEntry)
  (acc : Locals * UI) :
  forEachLog now late (front ++ back) acc
  = forEachLog now late back (forEachLog now late front acc).
Proof. apply fold_left_app. Qed.

(** X8.  Lines that begin with one of the three control prefixes are
    hidden, whatever follows the prefix, and the fold is blind to
    hidden lines: run over a log sequence or over the sequence with
    its hidden lines taken out, it ends with the same locals and the
    same page, and the reconstruction is the same. *)
Theorem hidden_lines_leave_no_trace now (late : option string)
  (entries : list LogEntry) (acc : Locals * UI) (text : string) :
  shouldShowLog (String.append "Token usage:" text) = false
  /\ shouldShowLog (String.append "Session debug_url:" text) = false
  /\ shouldShowLog (String.append "开始处理任务" text) = false
  /\ forEachLog now late
       (filter (fun e => shouldShowLog (message e)) entries) acc
     = forEachLog now late entries acc
  /\ reconstruct (filter (fun e => shouldShowLog (message e)) entries)
     = reconstruct entries.
Proof.
  do 3 (split; [destruct text; reflexivity|]).
  assert (H : forall clock read a,
             forEachLog clock read
               (filter (fun e => shouldShowLog (message e)) entries) a
             = forEachLog clock read entries a).
  { intros clock read.
    induction entries as [|log entries IH]; intros a; [reflexivity|].
    simpl filter. rewrite (forEachLog_cons clock read log entries).
    destruct (shouldShowLog (message log)) eqn:Hshow.
    - rewrite forEachLog_cons. apply IH.
    - rewrite IH. f_equal. unfold processLog. destruct a as [locals st].
      rewrite Hshow. reflexivity. }
  split; [apply H|].
  unfold reconstruct, processLogs. cbn [logs setLogs].
  set (shown := filter (fun e => shouldShowLog (message e)) entries) in *.
  set (p1 := setLogs (fun _ => shown) blank).
  set (p2 := setLogs (fun _ => entries) blank).
  destruct entries as [|e entries']; [reflexivity|].
  set (all := e :: entries') in *.
  assert (L : stepAfterLoop epoch all (rendered p2)
              = stepAfterLoop epoch shown (rendered p1)).
  { unfold stepAfterLoop. rewrite <- (H epoch None). f_equal.
    apply forEachLog_locals. }
  rewrite L, <- (H epoch (stepAfterLoop epoch shown (rendered p1))).
  destruct (forEachLog_inStep epoch epoch
              (stepAfterLoop epoch shown (rendered p1)) shown noStep
              (rendered p1) (rendered p2) eq_refl)
    as (k1 & k2 & (H1 & _) & (H2 & _) & E).
  destruct shown as [|f shown'] eqn:Hshown.
  - simpl. reflexivity.
  - rewrite H1, H2. exact E.
Qed.

Lemma prefix_nil (s : string) : String.prefix "" s = true.
Proof. destruct s; reflexivity. Qed.

Lemma prefix_append (p s : string) :
  String.prefix p (String.append p s) = true.
Proof.
  induction p as [|a p IH]; simpl; [apply prefix_nil|].
  destruct (ascii_dec a a) as [_|N]; [exact IH|contradiction].
Qed.

Lemma drop_append (p s : string) :
  JS.drop (String.length p) (String.append p s) = s.
Proof. induction p as [|a p IH]; simpl; [reflexivity|exact IH]. Qed.

Lemma remove_first_prefix (pat text : string) :
  JS.remove_first pat (String.append pat text) = text.
Proof.
  destruct (String.append pat text) eqn:E; cbn [JS.remove_first];
    rewrite <- E, prefix_append, drop_append; reflexivity.
Qed.

Lemma remove_first_absent (pat s : string) :
  JS.includes s pat = false -> JS.remove_first pat s = s.
Proof.
  induction s as [|c r IH]; cbn [JS.includes JS.remove_first]; intros H.
  - destruct (String.prefix pat ""); [discriminate H|reflexivity].
  - destruct (String.prefix pat (String c r)); [discriminate H|].
    rewrite (IH H). reflexivity.
Qed.

Lemma question_marker_class (text : string) :
  isHumanQuestion text = true -> shouldShowLog text = true.
Proof.
  unfold isHumanQuestion, JS.startsWith.
  destruct text as [|c rest]; cbn [String.prefix]; intros H.
  - discriminate H.
  - destruct (ascii_dec "[" c) as [<-|]; [reflexivity|discriminate H].
Qed.

(** X9.  A line that begins with the question marker is shown as one
    question and becomes the pending question, the locals of the fold
    being left alone.  What is shown is the line without the first
    occurrence of the marker followed by a space: the bare text when
    the line is the marker, a space and the text, and the whole line,
    marker included, when no space follows the marker anywhere. *)
Theorem question_is_shown_without_its_marker now (line level : string)
  (locals : Locals) (st : UI) (late : option string) :
  isHumanQuestion line = true ->
  exists shown,
    processLog now late (mkLog level line) (locals, st)
    = (locals,
       appendMessage now (questionMessage shown)
                     (setCurrentHumanQuestion shown st))
    /\ (forall text,
          line = String.append "[ASK_HUMAN] " text -> shown = text)
    /\ (JS.includes line "[ASK_HUMAN] " = false -> shown = line).
Proof.
  intros H. exists (JS.remove_first "[ASK_HUMAN] " line).
  split; [|split].
  - unfold processLog. cbn [message].
    rewrite (question_marker_class line H), H. reflexivity.
  - intros text ->. apply remove_first_prefix.
  - apply remove_first_absent.
Qed.

Lemma question_is_shown_without_its_marker_witness :
  isHumanQuestion "[ASK_HUMAN]which colour?" = true
  /\ exists shown,
       processLog at_noon None (mkLog "INFO" "[ASK_HUMAN]which colour?")
                  (noStep, running)
       = (noStep,
          appendMessage at_noon (questionMessage shown)
                        (setCurrentHumanQuestion shown running))
       /\ (forall text,
             "[ASK_HUMAN]which colour?"
             = String.append "[ASK_HUMAN] " text -> shown = text)
       /\ (JS.includes "[ASK_HUMAN]which colour?" "[ASK_HUMAN] " = false ->
           shown = "[ASK_HUMAN]which colour?").
Proof.
  split; [reflexivity|].
  apply (question_is_shown_without_its_marker at_noon
           "[ASK_HUMAN]which colour?" "INFO" noStep running None eq_refl).
Defined.

Lemma flush_contents now (bucket : list string) :
  forall st,
    exists k,
      chatOnly st (fold_left (fun s msg => appendMessage now (plainBot msg) s)
                             bucket st) k
      /\ map content k = bucket.
Proof.
  induction bucket as [|msg bucket IH]; intros st; simpl.
  - exists []. split; [apply chatOnly_refl|reflexivity].
  - destruct (IH (appendMessage now (plainBot msg) st)) as (k & Hk & Hc).
    eexists. split.
    + eapply chatOnly_trans; [apply chatOnly_appendMessage|exact Hk].
    + simpl. rewrite Hc. reflexivity.
Qed.

Lemma bucketed_class (text : string) :
  bucketed text = true ->
  shouldShowLog text = true
  /\ isHumanQuestion text = false
  /\ isUserResponse text = false
  /\ isStepLog text = false.
Proof.
  unfold bucketed. intros H.
  apply andb_true_iff in H as [H H4]. apply andb_true_iff in H as [H H3].
  apply andb_true_iff in H as [H1 H2].
  apply negb_true_iff in H2, H3, H4. auto.
Qed.

(** Plain lines met while a step is open: each is shown once and
    pushed on the bucket. *)
Lemma forEachLog_in_step now late (plains : list LogEntry) :
  forall (step : option string) (bucket : list string) (st : UI),
    JS.truthy step = true ->
    forallb (fun e => bucketed (message e)) plains = true ->
    fst (forEachLog now late plains (mkLocals step bucket, st))
    = mkLocals step (bucket ++ map message plains)
    /\ exists k,
         chatOnly st
           (snd (forEachLog now late plains (mkLocals step bucket, st))) k
         /\ map content k = map message plains.
Proof.
  induction plains as [|log plains IH]; intros step bucket st Hstep Hall.
  - simpl. rewrite app_nil_r. split; [reflexivity|].
    exists []. split; [apply chatOnly_refl|reflexivity].
  - simpl in Hall. apply andb_true_iff in Hall as [Hlog Hall].
    destruct (bucketed_class _ Hlog) as (H1 & H2 & H3 & H4).
    rewrite forEachLog_cons.
    assert (E : processLog now late log (mkLocals step bucket, st)
                = (mkLocals step (bucket ++ [message log]),
                   appendMessage now
                     (inStepMessage (message log)
                        (readStep late (mkLocals step bucket) st)) st)).
    { unfold processLog. rewrite H1, H2, H3, H4. simpl. rewrite Hstep.
      reflexivity. }
    rewrite E.
    destruct (IH step (bucket ++ [message log])
                 (appendMessage now
                    (inStepMessage (message log)
                       (readStep late (mkLocals step bucket) st)) st)
                 Hstep Hall) as (Hf & k & Hk & Hc).
    split.
    + rewrite Hf, <- app_assoc. reflexivity.
    + eexists. split.
      * eapply chatOnly_trans; [apply chatOnly_appendMessage|exact Hk].
      * simpl. rewrite Hc. reflexivity.
Qed.

(** What a step marker shows: the bucket it lists, if a step is open
    and its bucket holds a line, and then its own text. *)
Lemma processLog_step_contents now late (log : LogEntry) (locals : Locals)
  (st : UI) :
  isStepLog (message log) = true ->
  exists k,
    chatOnly st (snd (processLog now late log (locals, st))) k
    /\ map content k
       = (if JS.truthy (currentStep locals)
          then currentStepMessages locals else [])
         ++ [message log].
Proof.
  intros Hlog. rewrite (processLog_step now late log locals st Hlog).
  cbv zeta. simpl snd.
  destruct (JS.truthy (currentStep locals)).
  - destruct (currentStepMessages locals) as [|msg bucket] eqn:Hb.
    + simpl. eexists. split; [apply chatOnly_appendMessage|reflexivity].
    + cbn [List.length Nat.eqb negb andb].
      destruct (flush_contents now (msg :: bucket) st) as (k & Hk & Hc).
      eexists. split.
      * eapply chatOnly_trans; [exact Hk|apply chatOnly_appendMessage].
      * rewrite map_app, Hc. reflexivity.
  - simpl. eexists. split; [apply chatOnly_appendMessage|reflexivity].
Qed.

(** X10.  A log made of a step marker, plain lines and a second step
    marker is shown with the plain lines twice: once as they come,
    under the first header, and once more, in the same order, when the
    second marker is met and the bucket of the first step is listed
    before the second header. *)
Theorem lines_of_a_closed_step_are_listed_twice now (st : UI)
  (first second : LogEntry) (plains : list LogEntry) :
  logs st = first :: plains ++ [second] ->
  isStepLog (message first) = true ->
  isStepLog (message second) = true ->
  forallb (fun e => bucketed (message e)) plains = true ->
  exists k,
    messages (processLogs now st) = messages st ++ k
    /\ map content k
       = message first
         :: map message plains ++ map message plains ++ [message second].
Proof.
  intros Hlogs Hfirst Hsecond Hplains.
  unfold processLogs. rewrite Hlogs.
  set (late := stepAfterLoop now (first :: plains ++ [second]) (rendered st)).
  rewrite forEachLog_cons, forEachLog_app.
  destruct (step_marker_class _ Hfirst) as (_ & _ & _ & Htruthy).
  destruct (processLog_step_contents now late first noStep (rendered st)
              Hfirst) as (k0 & Hk0 & Hc0).
  pose proof (processLog_step now late first noStep (rendered st) Hfirst)
    as E0.
  destruct (processLog now late first (noStep, rendered st)) as [l0 s0].
  injection E0 as -> _. simpl snd in Hk0. simpl in Hc0.
  destruct (forEachLog_in_step now late plains (Some (message first)) [] s0
              Htruthy Hplains) as (Hf & k1 & Hk1 & Hc1).
  destruct (forEachLog now late plains
              (mkLocals (Some (message first)) [], s0)) as [l1 s1].
  simpl in Hf, Hk1. subst l1.
  rewrite (forEachLog_cons now late second []).
  destruct (processLog_step_contents now late second
              (mkLocals (Some (message first)) (map message plains)) s1
              Hsecond) as (k2 & Hk2 & Hc2).
  cbn [currentStep currentStepMessages JS.truthy] in Hc2.
  rewrite Htruthy in Hc2.
  unfold forEachLog at 1. cbn [fold_left].
  pose proof (chatOnly_trans _ _ _ _ _
                (chatOnly_trans _ _ _ _ _ Hk0 Hk1) Hk2) as C.
  exists ((k0 ++ k1) ++ k2). split; [exact (proj1 C)|].
  rewrite !map_app, Hc0, Hc1, Hc2. simpl. rewrite <- ?app_assoc.
  reflexivity.
Qed.

Lemma lines_of_a_closed_step_are_listed_twice_witness :
  logs (setLogs (fun _ => [info "Executing step 1"; info "searching";
                           info "reading"; info "Executing step 2"])
                running)
  = info "Executing step 1"
    :: [info "searching"; info "reading"] ++ [info "Executing step 2"]
  /\ isStepLog (message (info "Executing step 1")) = true
  /\ isStepLog (message (info "Executing step 2")) = true
  /\ forallb (fun e => bucketed (message e))
             [info "searching"; info "reading"] = true
  /\ exists k,
       messages (processLogs at_noon
                   (setLogs (fun _ => [info "Executing step 1";
                                       info "searching"; info "reading";
                                       info "Executing step 2"])
                            running))
       = messages running ++ k
       /\ map content k
          = ["Executing step 1"; "searching"; "reading";
             "searching"; "reading"; "Executing step 2"].
Proof.
  do 4 (split; [reflexivity|]).
  apply (lines_of_a_closed_step_are_listed_twice at_noon
           (setLogs (fun _ => [info "Executing step 1"; info "searching";
                               info "reading"; info "Executing step 2"])
                    running)
           (info "Executing step 1") (info "Executing step 2")
           [info "searching"; info "reading"]
           eq_refl eq_refl eq_refl eq_refl).
Defined.

(* ================================================================= *)
(** ** Rendering: [escapeHtml] *)

Lemma append_assoc (a b c : string) :
  String.append (String.append a b) c = String.append a (String.append b c).
Proof.
  induction a as [|x a IH]; simpl; [reflexivity|]. rewrite IH. reflexivity.
Qed.

Lemma append_nil_r (a : string) : String.append a "" = a.
Proof.
  induction a as [|x a IH]; simpl; [reflexivity|]. rewrite IH. reflexivity.
Qed.

Lemma length_append (a b : string) :
  String.length (String.append a b) = String.length a + String.length b.
Proof.
  induction a as [|x a IH]; simpl; [reflexivity|]. rewrite IH. reflexivity.
Qed.

Lemma replaceAll_append (c : ascii) (rep a b : string) :
  Html.replaceAll c rep (String.append a b)
  = String.append (Html.replaceAll c rep a) (Html.replaceAll c rep b).
Proof.
  induction a as [|x a IH]; simpl; [reflexivity|].
  rewrite IH. destruct (Ascii.eqb x c); [|reflexivity].
  rewrite append_assoc. reflexivity.
Qed.

Lemma occurs_append (c : ascii) (a b : string) :
  Html.occurs c (String.append a b) = Html.occurs c a || Html.occurs c b.
Proof.
  induction a as [|x a IH]; simpl; [reflexivity|].
  rewrite IH. apply orb_assoc.
Qed.

Lemma replaceAll_absent (c : ascii) (rep s : string) :
  Html.occurs c s = false -> Html.replaceAll c rep s = s.
Proof.
  induction s as [|x s IH]; simpl; intros H; [reflexivity|].
  apply orb_false_iff in H as [Hx Hs]. rewrite Hx, (IH Hs). reflexivity.
Qed.

(** The five passes come to one pass that maps each character on its
    own. *)
Lemma escapeHtml_cons (c : ascii) (r : string) :
  Html.escapeHtml (String c r)
  = String.append (escapeChar c) (Html.escapeHtml r).
Proof.
  unfold Html.escapeHtml, escapeChar. cbn [Html.replaceAll].
  destruct (Ascii.eqb_spec c "&") as [->|H1].
  { rewrite !replaceAll_append. reflexivity. }
  cbn [Html.replaceAll].
  destruct (Ascii.eqb_spec c "<") as [->|H2].
  { rewrite !replaceAll_append. reflexivity. }
  cbn [Html.replaceAll].
  destruct (Ascii.eqb_spec c ">") as [->|H3].
  { rewrite !replaceAll_append. reflexivity. }
  cbn [Html.replaceAll].
  destruct (Ascii.eqb_spec c Html.quote) as [->|H4].
  { rewrite !replaceAll_append. reflexivity. }
  cbn [Html.replaceAll].
  destruct (Ascii.eqb_spec c "'") as [->|H5]; reflexivity.
Qed.

Lemma escapeHtml_append (a b : string) :
  Html.escapeHtml (String.append a b)
  = String.append (Html.escapeHtml a) (Html.escapeHtml b).
Proof.
  induction a as [|x a IH]; [reflexivity|].
  simpl String.append. rewrite !escapeHtml_cons, IH, append_assoc.
  reflexivity.
Qed.

Lemma escapeChar_cases (c : ascii) :
  (c = "&"%char /\ escapeChar c = "&amp;")
  \/ (c = "<"%char /\ escapeChar c = "&lt;")
  \/ (c = ">"%char /\ escapeChar c = "&gt;")
  \/ (c = Html.quote /\ escapeChar c = "&quot;")
  \/ (c = "'"%char /\ escapeChar c = "&#039;")
  \/ (c <> "&"%char /\ c <> "<"%char /\ c <> ">"%char
      /\ c <> Html.quote /\ c <> "'"%char
      /\ escapeChar c = String c EmptyString).
Proof.
  unfold escapeChar.
  destruct (Ascii.eqb_spec c "&"); [auto|].
  destruct (Ascii.eqb_spec c "<"); [auto|].
  destruct (Ascii.eqb_spec c ">"); [auto 6|].
  destruct (Ascii.eqb_spec c Html.quote); [auto 7|].
  destruct (Ascii.eqb_spec c "'"); [auto 8|].
  do 5 right. auto 10.
Qed.

(** X11.  The text [escapeHtml] returns holds no [<], no [>], no
    double quote and no single quote, whatever text it is given. *)
Theorem escapeHtml_leaves_no_markup (text : string) :
  Html.occurs "<" (Html.escapeHtml text) = false
  /\ Html.occurs ">" (Html.escapeHtml text) = false
  /\ Html.occurs Html.quote (Html.escapeHtml text) = false
  /\ Html.occurs "'" (Html.escapeHtml text) = false.
Proof.
  induction text as [|c r (IH1 & IH2 & IH3 & IH4)];
    [repeat split|].
  rewrite escapeHtml_cons, !occurs_append, IH1, IH2, IH3, IH4.
  rewrite !orb_false_r.
  destruct (escapeChar_cases c)
    as [[-> ->]|[[-> ->]|[[-> ->]|[[-> ->]|[[-> ->]|
        (N1 & N2 & N3 & N4 & N5 & ->)]]]]];
    try (repeat split; reflexivity).
  cbn [Html.occurs]. rewrite !orb_false_r.
  apply Ascii.eqb_neq in N2, N3, N4, N5. auto.
Qed.

Lemma escapeChar_injective (c1 c2 : ascii) (x y : string) :
  String.append (escapeChar c1) x = String.append (escapeChar c2) y ->
  c1 = c2 /\ x = y.
Proof.
  intros H.
  destruct (escapeChar_cases c1)
    as [[-> E1]|[[-> E1]|[[-> E1]|[[-> E1]|[[-> E1]|
        (N1 & _ & _ & _ & _ & E1)]]]]];
  destruct (escapeChar_cases c2)
    as [[-> E2]|[[-> E2]|[[-> E2]|[[-> E2]|[[-> E2]|
        (M1 & _ & _ & _ & _ & E2)]]]]];
  rewrite ?E1, ?E2 in H; simpl in H;
    try discriminate H;
    inversion H; subst;
    solve [auto | exfalso; congruence].
Qed.

(** X12.  [escapeHtml] loses nothing: two texts with the same escaped
    form are the same text. *)
Theorem escapeHtml_is_injective (a : string) :
  forall b, Html.escapeHtml a = Html.escapeHtml b -> a = b.
Proof.
  induction a as [|c a IH]; intros [|d b] H.
  - reflexivity.
  - rewrite escapeHtml_cons in H.
    destruct (escapeChar_cases d)
      as [[-> E]|[[-> E]|[[-> E]|[[-> E]|[[-> E]|
          (_ & _ & _ & _ & _ & E)]]]]];
      rewrite E in H; discriminate H.
  - rewrite escapeHtml_cons in H.
    destruct (escapeChar_cases c)
      as [[-> E]|[[-> E]|[[-> E]|[[-> E]|[[-> E]|
          (_ & _ & _ & _ & _ & E)]]]]];
      rewrite E in H; discriminate H.
  - rewrite !escapeHtml_cons in H.
    apply escapeChar_injective in H as [-> H].
    f_equal. apply IH. exact H.
Qed.

Lemma escapeHtml_is_injective_witness :
  Html.escapeHtml "a<b" = Html.escapeHtml "a<b" /\ "a<b" = "a<b".
Proof.
  split; [reflexivity|].
  apply (escapeHtml_is_injective "a<b" "a<b"). reflexivity.
Defined.

(* ================================================================= *)
(** ** Rendering: [formatMessage] *)

Lemma no_fence_without_backtick (c : ascii) (r : string) :
  Ascii.eqb c Html.backtick = false ->
  String.prefix "```" (String c r) = false.
Proof.
  intros H. cbn [String.prefix].
  destruct (ascii_dec "`" c) as [<-|_]; [discriminate H|reflexivity].
Qed.

Lemma replaceFences_plain (s : string) :
  Html.occurs Html.backtick s = false -> Html.replaceFences 0 s = s.
Proof.
  induction s as [|c r IH]; intros H; [reflexivity|].
  simpl in H. apply orb_false_iff in H as [Hc Hr].
  cbn [Html.replaceFences]. unfold Html.fenceAt.
  rewrite (no_fence_without_backtick c r Hc), (IH Hr). reflexivity.
Qed.

Lemma replaceInline_plain (s : string) :
  Html.occurs Html.backtick s = false -> Html.replaceInline 0 s = s.
Proof.
  induction s as [|c r IH]; intros H; [reflexivity|].
  simpl in H. apply orb_false_iff in H as [Hc Hr].
  cbn [Html.replaceInline Html.inlineAt].
  rewrite Hc, (IH Hr). reflexivity.
Qed.

(** X13.  A message without a backtick is only given its line breaks:
    each line feed becomes a break tag and every other character is
    passed on as it is, markup included; without line feeds the
    message is returned unchanged. *)
Theorem formatMessage_without_backtick (text : string) :
  Html.occurs Html.backtick text = false ->
  Html.formatMessage text = lineBreaks text
  /\ (Html.occurs Html.newline text = false ->
      Html.formatMessage text = text).
Proof.
  intros H.
  assert (E : Html.formatMessage text = lineBreaks text).
  { unfold Html.formatMessage.
    rewrite (replaceFences_plain text H), (replaceInline_plain text H).
    reflexivity. }
  split; [exact E|].
  intros N. rewrite E. apply replaceAll_absent. exact N.
Qed.

Lemma formatMessage_without_backtick_witness :
  Html.occurs Html.backtick "<b>bold</b> & more" = false
  /\ Html.formatMessage "<b>bold</b> & more" = "<b>bold</b> & more".
Proof.
  split; [reflexivity|].
  apply (formatMessage_without_backtick "<b>bold</b> & more" eq_refl).
  reflexivity.
Defined.

Lemma span_word (language rest : string) :
  allWord language = true ->
  Html.span Html.wordChar (String.append language (String Html.newline rest))
  = (language, String Html.newline rest).
Proof.
  induction language as [|c r IH]; intros H; [reflexivity|].
  simpl in H. apply andb_true_iff in H as [Hc Hr].
  simpl. rewrite Hc, (IH Hr). reflexivity.
Qed.

Lemma splitAt_closing (code : string) :
  Html.occurs Html.backtick code = false ->
  Html.splitAt "```" (String.append code "```") = Some (code, "").
Proof.
  induction code as [|c r IH]; intros H; [reflexivity|].
  simpl in H. apply orb_false_iff in H as [Hc Hr].
  simpl String.append. cbn [Html.splitAt].
  rewrite (no_fence_without_backtick c _ Hc), (IH Hr). reflexivity.
Qed.

Lemma replaceFences_covered (s : string) :
  forall k, String.length s <= k -> Html.replaceFences k s = "".
Proof.
  induction s as [|c r IH]; intros k H; [reflexivity|].
  simpl in H. destruct k as [|k]; [lia|].
  cbn [Html.replaceFences]. apply IH. lia.
Qed.

Lemma fenceAt_fence (language code : string) :
  allWord language = true ->
  Html.occurs Html.backtick code = false ->
  Html.fenceAt (fence language code)
  = Some (language, code,
          3 + String.length language + 1 + String.length code + 3).
Proof.
  intros Hl Hc. unfold Html.fenceAt, fence.
  rewrite prefix_append.
  change (JS.drop 3 (String.append "```"
            (String.append language
               (String Html.newline (String.append code "```")))))
    with (String.append language
            (String Html.newline (String.append code "```"))).
  rewrite (span_word language _ Hl).
  change (Ascii.eqb Html.newline Html.newline) with true. cbv iota.
  rewrite (splitAt_closing code Hc). reflexivity.
Qed.

Lemma replaceFences_head (a : ascii) (r : string) :
  Html.replaceFences 0 (String a r)
  = match Html.fenceAt (String a r) with
    | Some (language, code, n) =>
      String.append (Html.codeBlock language code)
                    (Html.replaceFences (n - 1) r)
    | None => String a (Html.replaceFences 0 r)
    end.
Proof. reflexivity. Qed.

Lemma replaceFences_fence (language code : string) :
  allWord language = true ->
  Html.occurs Html.backtick code = false ->
  Html.replaceFences 0 (fence language code) = Html.codeBlock language code.
Proof.
  intros Hl Hc.
  pose proof (fenceAt_fence language code Hl Hc) as F.
  set (rest := String "`" (String "`"
                 (String.append language
                    (String Html.newline (String.append code "```"))))).
  assert (E : fence language code = String "`" rest) by reflexivity.
  rewrite E in F |- *. rewrite replaceFences_head, F.
  rewrite replaceFences_covered; [apply append_nil_r|].
  subst rest. cbn [String.length]. rewrite length_append.
  cbn [String.length]. rewrite length_append. simpl. lia.
Qed.

Lemma wordChar_not (c x : ascii) :
  Html.wordChar x = false -> Html.wordChar c = true -> Ascii.eqb c x = false.
Proof.
  intros Hx Hc. destruct (Ascii.eqb_spec c x) as [->|]; [congruence|reflexivity].
Qed.

Lemma allWord_lacks (x : ascii) (s : string) :
  Html.wordChar x = false -> allWord s = true -> Html.occurs x s = false.
Proof.
  intros Hx. induction s as [|c r IH]; intros H; [reflexivity|].
  simpl in H. apply andb_true_iff in H as [Hc Hr].
  simpl. rewrite (wordChar_not c x Hx Hc), (IH Hr). reflexivity.
Qed.

Lemma trimStart_occurs (c : ascii) :
  forall n s,
    String.length s <= n ->
    Html.occurs c (JS.trimStart s) = true -> Html.occurs c s = true.
Proof.
  induction n as [|n IH]; intros s Hn H.
  - destruct s; [exact H|simpl in Hn; lia].
  - destruct s as [|c1 r1]; [exact H|].
    simpl in Hn. cbn [JS.trimStart] in H.
    destruct (JS.ws1 c1).
    { simpl. rewrite (IH r1); [apply orb_true_r|lia|exact H]. }
    destruct r1 as [|c2 r2]; [exact H|].
    simpl in Hn.
    destruct (JS.ws2 c1 c2).
    { simpl. rewrite (IH r2); [rewrite !orb_true_r; reflexivity|lia|exact H]. }
    destruct r2 as [|c3 r3]; [exact H|].
    simpl in Hn.
    destruct (JS.ws3 c1 c2 c3); [|exact H].
    simpl. rewrite (IH r3); [rewrite !orb_true_r; reflexivity|lia|exact H].
Qed.

Lemma trimEnd_cons (a : ascii) (r : string) :
  JS.trimEnd (String a r)
  = match JS.trimStart (String a r) with
    | EmptyString => EmptyString
    | String _ _ => String a (JS.trimEnd r)
    end.
Proof. reflexivity. Qed.

Lemma trimEnd_occurs (c : ascii) (s : string) :
  Html.occurs c (JS.trimEnd s) = true -> Html.occurs c s = true.
Proof.
  induction s as [|a r IH]; intros H; [exact H|].
  rewrite trimEnd_cons in H.
  destruct (JS.trimStart (String a r)); [discriminate H|].
  simpl in H. simpl. apply orb_true_iff in H as [H|H].
  - rewrite H. reflexivity.
  - rewrite (IH H). apply orb_true_r.
Qed.

Lemma trim_lacks (c : ascii) (s : string) :
  Html.occurs c s = false -> Html.occurs c (JS.trim s) = false.
Proof.
  intros H. destruct (Html.occurs c (JS.trim s)) eqn:E; [|reflexivity].
  unfold JS.trim in E. apply trimEnd_occurs in E.
  apply (trimStart_occurs c (String.length s) s (le_n _)) in E. congruence.
Qed.

Lemma escapeHtml_lacks_backtick (s : string) :
  Html.occurs Html.backtick s = false ->
  Html.occurs Html.backtick (Html.escapeHtml s) = false.
Proof.
  induction s as [|c r IH]; intros H; [reflexivity|].
  simpl in H. apply orb_false_iff in H as [Hc Hr].
  rewrite escapeHtml_cons, occurs_append, (IH Hr), orb_false_r.
  destruct (escapeChar_cases c)
    as [[-> ->]|[[-> ->]|[[-> ->]|[[-> ->]|[[-> ->]|
        (_ & _ & _ & _ & _ & ->)]]]]]; try reflexivity.
  simpl. rewrite Hc. reflexivity.
Qed.

Lemma codeBlock_split (language code : string) :
  Html.codeBlock language code
  = String.append (codeOpen language)
      (String.append (Html.escapeHtml (JS.trim code)) "</code></pre>").
Proof.
  unfold Html.codeBlock, codeOpen. rewrite !append_assoc. reflexivity.
Qed.

(** X14.  A message that is one fenced block, with a language made of
    word characters and a code without backticks, is rendered as one
    [pre]/[code] element whose class names the language and whose
    content is the code, trimmed, escaped, and with its line feeds
    turned into break tags. *)
Theorem formatMessage_of_a_fence (language code : string) :
  allWord language = true ->
  Html.occurs Html.backtick code = false ->
  Html.formatMessage (fence language code)
  = String.append (codeOpen language)
      (String.append (lineBreaks (Html.escapeHtml (JS.trim code)))
                     "</code></pre>").
Proof.
  intros Hl Hc. unfold Html.formatMessage.
  rewrite (replaceFences_fence language code Hl Hc).
  assert (B : Html.occurs Html.backtick (Html.codeBlock language code)
              = false).
  { rewrite codeBlock_split. unfold codeOpen.
    rewrite !occurs_append.
    rewrite (allWord_lacks Html.backtick language eq_refl Hl).
    rewrite (escapeHtml_lacks_backtick _ (trim_lacks _ _ Hc)).
    reflexivity. }
  rewrite (replaceInline_plain _ B), codeBlock_split.
  unfold lineBreaks, codeOpen. rewrite !replaceAll_append.
  rewrite (replaceAll_absent Html.newline "<br>" language
             (allWord_lacks Html.newline language eq_refl Hl)).
  reflexivity.
Qed.

Lemma formatMessage_of_a_fence_witness :
  allWord "py" = true
  /\ Html.occurs Html.backtick " if a<b: pass " = false
  /\ Html.formatMessage (fence "py" " if a<b: pass ")
     = String.append (codeOpen "py") "if a&lt;b: pass</code></pre>".
Proof.
  split; [reflexivity|]. split; [reflexivity|].
  apply (formatMessage_of_a_fence "py" " if a<b: pass " eq_refl eq_refl).
Defined.

Lemma replaceInline_head (a : ascii) (r : string) :
  Html.replaceInline 0 (String a r)
  = match Html.inlineAt (String a r) with
    | Some (body, n) =>
      String.append (Html.inlineCode body) (Html.replaceInline (n - 1) r)
    | None => String a (Html.replaceInline 0 r)
    end.
Proof. reflexivity. Qed.

Lemma replaceInline_covered (s : string) :
  forall k, String.length s <= k -> Html.replaceInline k s = "".
Proof.
  induction s as [|c r IH]; intros k H; [reflexivity|].
  simpl in H. destruct k as [|k]; [lia|].
  cbn [Html.replaceInline]. apply IH. lia.
Qed.

Lemma span_to_backtick (body : string) :
  Html.occurs Html.backtick body = false ->
  Html.span (fun c => negb (Ascii.eqb c Html.backtick))
            (String.append body "`")
  = (body, "`").
Proof.
  induction body as [|c r IH]; intros H; [reflexivity|].
  simpl in H. apply orb_false_iff in H as [Hc Hr].
  simpl. rewrite Hc, (IH Hr). reflexivity.
Qed.

Lemma replaceFences_before_backtick (body : string) :
  Html.occurs Html.backtick body = false ->
  Html.replaceFences 0 (String.append body "`") = String.append body "`".
Proof.
  induction body as [|c r IH]; intros H; [reflexivity|].
  simpl in H. apply orb_false_iff in H as [Hc Hr].
  simpl String.append. rewrite replaceFences_head. unfold Html.fenceAt.
  rewrite (no_fence_without_backtick c _ Hc), (IH Hr). reflexivity.
Qed.

(** X15.  A message that is one span between two backticks, not empty
    and without a backtick inside, is rendered as one [code] element;
    its content is the span with line feeds turned into break tags
    and is otherwise passed on as it is, markup included. *)
Theorem formatMessage_of_inline_code (first : ascii) (others : string) :
  Html.occurs Html.backtick (String first others) = false ->
  Html.formatMessage
    (String Html.backtick (String.append (String first others) "`"))
  = Html.inlineCode (lineBreaks (String first others)).
Proof.
  intros H. pose proof H as H'. simpl in H'.
  apply orb_false_iff in H' as [Hfirst Hothers].
  unfold Html.formatMessage.
  assert (F : Html.replaceFences 0
                (String Html.backtick
                   (String.append (String first others) "`"))
              = String Html.backtick
                  (String.append (String first others) "`")).
  { rewrite replaceFences_head.
    assert (N : Html.fenceAt
                  (String Html.backtick
                     (String.append (String first others) "`"))
                = None).
    { unfold Html.fenceAt. simpl String.append. cbn [String.prefix].
      change (ascii_dec "`" Html.backtick) with (ascii_dec "`" "`").
      destruct (ascii_dec "`" "`") as [_|N]; [|contradiction].
      destruct (ascii_dec "`" first) as [<-|_];
        [discriminate Hfirst|reflexivity]. }
    rewrite N, (replaceFences_before_backtick _ H). reflexivity. }
  rewrite F, replaceInline_head.
  assert (I : Html.inlineAt
                (String Html.backtick
                   (String.append (String first others) "`"))
              = Some (String first others,
                      String.length (String first others) + 2)).
  { unfold Html.inlineAt.
    change (Ascii.eqb Html.backtick Html.backtick) with true. cbv iota.
    rewrite (span_to_backtick _ H). reflexivity. }
  rewrite I, replaceInline_covered.
  - rewrite append_nil_r. unfold lineBreaks, Html.inlineCode.
    rewrite !replaceAll_append. reflexivity.
  - rewrite length_append. simpl. lia.
Qed.

Lemma formatMessage_of_inline_code_witness :
  Html.occurs Html.backtick "<i>x</i>" = false
  /\ Html.formatMessage "`<i>x</i>`" = Html.inlineCode "<i>x</i>".
Proof.
  split; [reflexivity|].
  apply (formatMessage_of_inline_code "<" "i>x</i>" eq_refl).
Defined.

(* ================================================================= *)
(** ** The browser frame *)

Lemma firstUrl_app (front back : list LogEntry) :
  Browser.firstUrl (front ++ back)
  = match Browser.firstUrl front with
    | Some url => Some url
    | None => Browser.firstUrl back
    end.
Proof.
  induction front as [|log front IH]; simpl; [reflexivity|].
  destruct (Browser.urlOfLog log); [reflexivity|exact IH].
Qed.

Lemma extractUrlFromLogs_rev (logs : list LogEntry) :
  Browser.extractUrlFromLogs logs = Browser.firstUrl (rev logs).
Proof. destruct logs; reflexivity. Qed.

(** X16.  The address taken from a log list that has grown is the one
    announced latest among the new entries, and the address of the old
    list when the new entries announce none. *)
Theorem extractUrlFromLogs_follows_the_latest (old new : list LogEntry) :
  Browser.extractUrlFromLogs (old ++ new)
  = match Browser.extractUrlFromLogs new with
    | Some url => Some url
    | None => Browser.extractUrlFromLogs old
    end.
Proof.
  rewrite !extractUrlFromLogs_rev, rev_app_distr. apply firstUrl_app.
Qed.

Lemma ws1_differs (x c : ascii) :
  JS.ws1 x = false -> JS.ws1 c = true -> Ascii.eqb x c = false.
Proof.
  intros Hx Hc. destruct (Ascii.eqb_spec x c) as [->|]; [congruence|reflexivity].
Qed.

Lemma takeNonSpace_anySpace (s : string) :
  anySpace (Browser.takeNonSpace s) = false.
Proof.
  induction s as [|c1 r1 IH]; [reflexivity|].
  cbn [Browser.takeNonSpace].
  destruct (JS.ws1 c1) eqn:H1; [reflexivity|].
  destruct r1 as [|c2 r2].
  { simpl. rewrite H1. reflexivity. }
  destruct (JS.ws2 c1 c2); [reflexivity|].
  destruct r2 as [|c3 r3].
  { cbn [anySpace]. rewrite H1, IH. reflexivity. }
  destruct (JS.ws3 c1 c2 c3); [reflexivity|].
  cbn [anySpace]. rewrite H1, IH. reflexivity.
Qed.

Lemma anySpace_append (a b : string) :
  anySpace (String.append a b) = anySpace a || anySpace b.
Proof.
  induction a as [|x a IH]; simpl; [reflexivity|].
  rewrite IH. apply orb_assoc.
Qed.

Lemma urlAt_shape (s url : string) :
  Browser.urlAt s = Some url ->
  ((exists a rest, url = String.append "http://" (String a rest))
   \/ (exists a rest, url = String.append "https://" (String a rest)))
  /\ anySpace url = false.
Proof.
  unfold Browser.urlAt.
  destruct (String.prefix ": https://" s).
  - pose proof (takeNonSpace_anySpace (JS.drop 10 s)) as A.
    destruct (Browser.takeNonSpace (JS.drop 10 s)) as [|a r];
      [discriminate|].
    intros H. injection H as <-. split.
    + right. exists a, r. reflexivity.
    + simpl. simpl in A. exact A.
  - destruct (String.prefix ": http://" s); [|discriminate].
    pose proof (takeNonSpace_anySpace (JS.drop 9 s)) as A.
    destruct (Browser.takeNonSpace (JS.drop 9 s)) as [|a r];
      [discriminate|].
    intros H. injection H as <-. split.
    + left. exists a, r. reflexivity.
    + simpl. simpl in A. exact A.
Qed.

Lemma matchUrl_shape (s : string) :
  forall url,
    Browser.matchUrl s = Some url ->
    ((exists a rest, url = String.append "http://" (String a rest))
     \/ (exists a rest, url = String.append "https://" (String a rest)))
    /\ anySpace url = false.
Proof.
  induction s as [|c r IH]; intros url H.
  - simpl in H. discriminate H.
  - cbn [Browser.matchUrl] in H.
    destruct (Browser.urlAt (String c r)) as [u|] eqn:E.
    + injection H as <-. exact (urlAt_shape _ _ E).
    + apply IH. exact H.
Qed.

(** X17.  An address taken from the logs is [http://] or [https://]
    followed by at least one more character, and holds no blank, tab
    or line break: after the scheme, whichever of the two it is, the
    address is not empty. *)
Theorem extracted_url_is_well_formed (logs : list LogEntry) (url : string) :
  Browser.extractUrlFromLogs logs = Some url ->
  ((exists a rest, url = String.append "http://" (String a rest))
   \/ (exists a rest, url = String.append "https://" (String a rest)))
  /\ anySpace url = false.
Proof.
  rewrite extractUrlFromLogs_rev.
  induction (rev logs) as [|log earlier IH]; intros H.
  - discriminate H.
  - simpl in H. destruct (Browser.urlOfLog log) as [u|] eqn:E.
    + injection H as <-. unfold Browser.urlOfLog in E.
      destruct (JS.includes (message log) "Session debug_url:");
        [|discriminate E].
      destruct (Browser.matchUrl (message log)) as [u'|] eqn:M;
        [|discriminate E].
      destruct (JS.truthy_string u'); [|discriminate E].
      injection E as <-. exact (matchUrl_shape _ _ M).
    + apply IH. exact H.
Qed.

Lemma extracted_url_is_well_formed_witness :
  Browser.extractUrlFromLogs
    [info "Session debug_url: https://host:9222/devtools now"]
  = Some "https://host:9222/devtools"
  /\ anySpace "https://host:9222/devtools" = false.
Proof.
  split; [reflexivity|].
  apply (extracted_url_is_well_formed
           [info "Session debug_url: https://host:9222/devtools now"]
           "https://host:9222/devtools" eq_refl).
Defined.

Lemma render_keeps_a_page (logs : list LogEntry) (url : string) :
  JS.truthy_string url = true ->
  JS.truthy_string (Browser.render logs url) = true.
Proof.
  intros H. unfold Browser.render.
  destruct (Browser.extractUrlFromLogs logs) as [newUrl|]; [|exact H].
  destruct (JS.truthy_string newUrl) eqn:T; [|exact H].
  simpl. destruct (negb (newUrl =? url)%string); [exact T|exact H].
Qed.

(** X18.  The frame never goes back to the empty address: once the
    [url] state holds an address it holds one after every later
    render, whatever log lists the renders receive; and a render with
    an empty log list, as after a reset, keeps the address it finds. *)
Theorem frame_never_goes_blank (props : list (list LogEntry))
  (url : string) :
  JS.truthy_string url = true ->
  JS.truthy_string (Browser.renders props url) = true
  /\ Browser.render [] url = url.
Proof.
  intros H. split; [|reflexivity].
  revert url H. induction props as [|logs props IH]; intros url H;
    [exact H|].
  unfold Browser.renders in *. simpl. apply IH.
  apply render_keeps_a_page. exact H.
Qed.

Lemma frame_never_goes_blank_witness :
  JS.truthy_string "http://a" = true
  /\ JS.truthy_string
       (Browser.renders [[info "Session debug_url: none"]; []] "http://a")
     = true.
Proof.
  split; [reflexivity|].
  apply (frame_never_goes_blank [[info "Session debug_url: none"]; []]
           "http://a" eq_refl).
Defined.

Lemma urlChar_plain (c : ascii) :
  Browser.urlChar c = true ->
  JS.ws1 c = false
  /\ (forall c2, JS.ws2 c c2 = false)
  /\ (forall c2 c3, JS.ws3 c c2 c3 = false).
Proof.
  unfold Browser.urlChar, JS.ws1, JS.ws2, JS.ws3, JS.code. intros H.
  apply andb_true_iff in H as [H1 H2].
  apply Nat.ltb_lt in H1, H2.
  assert (E : forall n, nat_of_ascii c <> n ->
                        (nat_of_ascii c =? n)%nat = false)
    by (intros n; apply Nat.eqb_neq).
  split; [|split]; intros;
    rewrite ?E by lia; reflexivity.
Qed.

Lemma takeNonSpace_urlText (s : string) :
  Browser.urlText s = true -> Browser.takeNonSpace s = s.
Proof.
  induction s as [|c1 r1 IH]; intros H; [reflexivity|].
  simpl in H. apply andb_true_iff in H as [Hc Hr].
  destruct (urlChar_plain c1 Hc) as (W1 & W2 & W3).
  cbn [Browser.takeNonSpace]. rewrite W1, (IH Hr).
  destruct r1 as [|c2 r2]; [reflexivity|]. rewrite W2.
  destruct r2 as [|c3 r3]; [reflexivity|]. rewrite W3. reflexivity.
Qed.

Lemma includes_here (s sub : string) :
  String.prefix sub s = true -> JS.includes s sub = true.
Proof.
  intros H. destruct s; cbn [JS.includes]; rewrite H; reflexivity.
Qed.

Lemma includes_prefix (p s : string) :
  JS.includes (String.append p s) p = true.
Proof. apply includes_here, prefix_append. Qed.

(** X19.  The line that announces the address of the browser session
    serves the frame and not the chat: for an address in printable
    characters that begins with [http://] or [https://], the
    log-processing fold passes over the line without a message and
    without touching its locals, while the frame takes exactly that
    address from any log list the line is the last entry of. *)
Theorem debug_url_goes_to_the_frame_not_the_chat now (host : string)
  (h : ascii) (secure : bool) (level : string) (logs : list LogEntry)
  (late : option string) (acc : Locals * UI) :
  Browser.urlText (String h host) = true ->
  let url :=
    String.append (if secure then "https://" else "http://")
                  (String h host) in
  processLog now late (mkLog level (debugLine url)) acc = acc
  /\ Browser.extractUrlFromLogs (logs ++ [mkLog level (debugLine url)])
     = Some url
  /\ Browser.render (logs ++ [mkLog level (debugLine url)]) "" = url.
Proof.
  intros H url.
  assert (P : processLog now late (mkLog level (debugLine url)) acc = acc).
  { destruct acc as [locals st]. subst url. destruct secure; reflexivity. }
  assert (U : Browser.urlOfLog (mkLog level (debugLine url)) = Some url).
  { unfold Browser.urlOfLog. cbn [message]. unfold debugLine.
    assert (I : JS.includes
                  (String.append "Session debug_url: " url)
                  "Session debug_url:" = true).
    { change (String.append "Session debug_url: " url)
        with (String.append "Session debug_url:" (String " " url)).
      apply includes_prefix. }
    rewrite I.
    assert (M : Browser.matchUrl (String.append "Session debug_url: " url)
                = Some url).
    { subst url. destruct secure.
      - cbn -[Browser.takeNonSpace].
        rewrite (takeNonSpace_urlText _ H). reflexivity.
      - cbn -[Browser.takeNonSpace].
        rewrite (takeNonSpace_urlText _ H). reflexivity. }
    rewrite M. subst url. destruct secure; reflexivity. }
  assert (X : Browser.extractUrlFromLogs
                (logs ++ [mkLog level (debugLine url)]) = Some url).
  { rewrite extractUrlFromLogs_rev, rev_app_distr, firstUrl_app.
    change (Browser.firstUrl (rev [mkLog level (debugLine url)]))
      with (match Browser.urlOfLog (mkLog level (debugLine url)) with
            | Some u => Some u
            | None => None
            end).
    rewrite U. reflexivity. }
  split; [exact P|]. split; [exact X|].
  unfold Browser.render. rewrite X. subst url.
  destruct secure; reflexivity.
Qed.

Lemma debug_url_goes_to_the_frame_not_the_chat_witness :
  Browser.urlText "host:9222/page" = true
  /\ Browser.extractUrlFromLogs
       ([info "Executing step 1"]
        ++ [mkLog "INFO" (debugLine "https://host:9222/page")])
     = Some "https://host:9222/page".
Proof.
  split; [reflexivity|].
  apply (debug_url_goes_to_the_frame_not_the_chat at_noon "ost:9222/page"
           "h" true "INFO" [info "Executing step 1"] None
           (noStep, running) eq_refl).
Defined.

(* ================================================================= *)
(** ** The logger *)

(** X20.  No line is lost to the filters of the logger: every line is
    shown under at least one of [info], [warning], [error] and
    [tool]. *)
Theorem every_line_has_a_filter (log : LogEntry) :
  Logger.shouldShowLog "info" log
  || Logger.shouldShowLog "warning" log
  || Logger.shouldShowLog "error" log
  || Logger.shouldShowLog "tool" log = true.
Proof.
  unfold Logger.shouldShowLog. simpl.
  destruct (level log =? "INFO")%string; [reflexivity|].
  destruct (JS.includes (message log) "ERROR");
    [rewrite !orb_true_r; reflexivity|].
  destruct (JS.includes (message log) "WARNING");
    [rewrite !orb_true_r; reflexivity|].
  destruct (JS.includes (message log) "执行工具");
    [rewrite !orb_true_r; reflexivity|reflexivity].
Qed.

(** X21.  The colour and the filters of the logger agree: a line drawn
    in the red, the yellow, the green or the purple style is shown
    under the [error], the [warning], the [info] or the [tool] filter
    respectively. *)
Theorem colour_implies_filter (log : LogEntry) :
  implb (Logger.getLogClassName log =? red)%string
        (Logger.shouldShowLog "error" log) = true
  /\ implb (Logger.getLogClassName log =? yellow)%string
           (Logger.shouldShowLog "warning" log) = true
  /\ implb (Logger.getLogClassName log =? green)%string
           (Logger.shouldShowLog "info" log) = true
  /\ implb (Logger.getLogClassName log =? purple)%string
           (Logger.shouldShowLog "tool" log) = true.
Proof.
  unfold Logger.getLogClassName, Logger.shouldShowLog. simpl.
  destruct (JS.includes (message log) "thoughts"
            || JS.includes (message log) "思考");
    [repeat split|].
  destruct (JS.includes (message log) "执行工具") eqn:T1.
  { repeat split. }
  destruct (JS.includes (message log) "Activating tool") eqn:T2.
  { repeat split. }
  simpl.
  destruct (level log =? "ERROR")%string eqn:L1.
  { apply String.eqb_eq in L1. rewrite L1. repeat split. }
  destruct (level log =? "WARNING")%string eqn:L2.
  { apply String.eqb_eq in L2. rewrite L2. repeat split. }
  destruct (level log =? "INFO")%string eqn:L3; repeat split.
Qed.

(* ================================================================= *)
(** ** When the input comes back *)

Lemma processLogs_flags now (st : UI) :
  isLoading (processLogs now st) = isLoading st
  /\ isAwaitingHuman (processLogs now st) = isAwaitingHuman st.
Proof.
  pose proof (processLogs_outsideChat now st) as E.
  unfold outsideChat in E. injection E as _ E2 _ _ _ E6 _ _. auto.
Qed.

Lemma statusAnswer_uneventful now (loading : bool)
  (r : Api.Fetched Api.StatusData) (st : UI) :
  uneventful r = true ->
  statusAnswer now loading r st
  = Normal tt
      (if failed r then console_log (Warn "Error polling status:") st
       else st).
Proof.
  intros H.
  destruct r as [| |[status response]]; try reflexivity.
  unfold uneventful, handled in H. cbn [Api.status] in H.
  apply negb_true_iff in H.
  apply orb_false_iff in H as [H H3].
  apply orb_false_iff in H as [H1 H2].
  unfold statusAnswer, try_catch, bind, update, await_json, ret.
  cbn [Api.status Api.response]. rewrite H1, H2, H3. reflexivity.
Qed.

Lemma logsAnswer_flags (r : Api.Fetched Api.LogsData) (st : UI) :
  isLoading (state_of (logsAnswer r st)) = isLoading st
  /\ isAwaitingHuman (state_of (logsAnswer r st)) = isAwaitingHuman st.
Proof.
  destruct r as [| |d]; try (split; reflexivity).
  unfold logsAnswer, try_catch, bind, update, await_json, ret.
  destruct (Api.logs d) as [[|entry more]|]; split; reflexivity.
Qed.

(** A tick of the status interval and a submit, as a call and the
    answer that follows it at once. *)
Lemma statusTick_as_events now (r : Api.Fetched Api.StatusData) (st : UI) :
  statusTick now r st
  = if statusPollerArmed st
    then occur now (StatusAnswer (isLoading st) r) (occur now StatusFetch st)
    else st.
Proof.
  unfold statusTick. simpl occur.
  destruct (statusPollerArmed st); [|reflexivity].
  rewrite pollStatus_call_answer. reflexivity.
Qed.

Lemma submit_as_events now (r : Api.Fetched Api.SendData) (st : UI) :
  state_of (handleSendMessage now r st)
  = if sendRefused st then st
    else if answering st
         then occur now (RespondAnswer r) (occur now SendPressed st)
         else occur now (SendAnswer r) (occur now SendPressed st).
Proof.
  unfold handleSendMessage. simpl occur.
  destruct (sendRefused st); [reflexivity|].
  destruct (answering st).
  - rewrite respond_call_answer. reflexivity.
  - rewrite startConversation_call_answer. reflexivity.
Qed.

(** X22.  While the input field is disabled, two things only enable it
    again: the answer to a status fetch, when it is JSON with status
    [awaiting_human], [completed] or [error]; and the failure of a
    POST to [/send].  Ticks of the two intervals, answers to log
    fetches, runs of the log-processing effect, typing, pressing send,
    a [/send] that is answered and any answer to [/human_response]
    keep it disabled.  Each of the two does enable it, whatever the
    page. *)
Theorem input_comes_back_on_status_or_failed_send now (ev : Event)
  (st : UI) :
  inputDisabled st = true ->
  (inputDisabled (occur now ev st) = false ->
   (exists loading data,
      ev = StatusAnswer loading (Api.Json data)
      /\ handled (Api.status data) = true)
   \/ (exists r, ev = SendAnswer r /\ failed r = true))
  /\ (forall loading data,
        handled (Api.status data) = true ->
        inputDisabled (occur now (StatusAnswer loading (Api.Json data)) st)
        = false)
  /\ (forall r,
        failed r = true ->
        inputDisabled (occur now (SendAnswer r) st) = false).
Proof.
  intros Hd. split; [|split].
  - intros He. unfold inputDisabled in *.
    destruct ev as [|loading r| |r| |text| |r|r]; simpl occur in He.
    + exfalso. destruct (statusPollerArmed st); simpl in He; congruence.
    + destruct (uneventful r) eqn:U.
      * exfalso. rewrite (statusAnswer_uneventful now loading r st U) in He.
        destruct (failed r); simpl in He; congruence.
      * left. destruct r as [| |data]; try discriminate U.
        exists loading, data. split; [reflexivity|].
        unfold uneventful in U. apply negb_false_iff in U. exact U.
    + exfalso. destruct (logPollerArmed st); simpl in He; congruence.
    + exfalso. destruct (logsAnswer_flags r st) as [E1 E2].
      rewrite E1, E2 in He. congruence.
    + exfalso. destruct (processLogs_flags now st) as [E1 E2].
      rewrite E1, E2 in He. congruence.
    + exfalso. simpl in He. congruence.
    + exfalso. unfold sendRefused in He.
      rewrite Hd, orb_true_r in He. congruence.
    + destruct r as [| |data].
      * right. exists Api.Rejected. split; reflexivity.
      * right. exists Api.Malformed. split; reflexivity.
      * exfalso. simpl in He. congruence.
    + exfalso. destruct r; simpl in He; try congruence.
  - intros loading [status response] H. unfold handled in H.
    cbn [Api.status] in H. simpl occur.
    unfold statusAnswer, try_catch, bind, update, await_json, ret.
    cbn [Api.status Api.response].
    destruct (status =? "awaiting_human")%string.
    { unfold inputDisabled.
      destruct loading; simpl; rewrite ?andb_false_r; reflexivity. }
    destruct (status =? "completed")%string.
    { destruct response as [text|]; [|reflexivity].
      destruct (JS.truthy_string text); reflexivity. }
    destruct (status =? "error")%string; [reflexivity|].
    discriminate H.
  - intros r H. destruct r; try discriminate H; reflexivity.
Qed.

Lemma input_comes_back_on_status_or_failed_send_witness :
  inputDisabled sending = true
  /\ inputDisabled (occur at_noon (SendAnswer Api.Rejected) sending) = false
  /\ inputDisabled
       (occur at_noon
          (StatusAnswer true
             (Api.Json (Api.mkStatusData "awaiting_human" None)))
          sending) = false.
Proof.
  split; [reflexivity|].
  pose proof (input_comes_back_on_status_or_failed_send at_noon
                (SendAnswer Api.Rejected) sending eq_refl)
    as (_ & Hstatus & Hsend).
  split; [apply Hsend; reflexivity|apply Hstatus; reflexivity].
Defined.

(* ================================================================= *)
(** ** The preview card *)

(** X23.  The caption and the pane of the preview card are chosen
    alike: for every message, and for none, the pane shown is the one
    the caption speaks of; in particular the card says that the
    computer is not in use exactly when it shows the empty pane. *)
Theorem caption_and_pane_agree (message : option Preview.Message) :
  Preview.PreviewContent message
  = Preview.paneOf (Preview.PreviewDescription message)
  /\ (Preview.PreviewDescription message = Preview.Idle
      <-> Preview.PreviewContent message = Preview.NotPreview).
Proof.
  unfold Preview.PreviewContent, Preview.PreviewDescription.
  destruct (Preview.typeIs message "agent:browser:browse:complete").
  { split; [reflexivity|split; discriminate]. }
  destruct (Preview.typeIs message "agent:tool:execute:start"
            && Preview.nameIs message "str_replace_editor"
            && Preview.commandIs message "view").
  { split; [reflexivity|split; discriminate]. }
  destruct (Preview.typeIs message "agent:tool:execute:start"
            && Preview.nameIs message "str_replace_editor").
  { split; [reflexivity|split; discriminate]. }
  destruct (Preview.typeIs message "agent:tool:execute:start"
            && Preview.nameIs message "python_execute").
  { split; [reflexivity|split; discriminate]. }
  destruct (Preview.typeIs message "agent:tool:execute:complete"
            && Preview.nameIs message "python_execute").
  { split; [reflexivity|split; discriminate]. }
  split; [reflexivity|split; reflexivity].
Qed.
